(** * The CO2 dashboard notebook: cleaning step and reactive pipelines

    A shallow embedding of [co2_data_visualization_project.ipynb].

    The notebook loads the OWID CO2 table into a pandas [DataFrame], fills
    the missing cells with 0, appends the column [gdp_per_capita], and
    derives three views from the cleaned frame, each a filter followed by a
    [groupby] aggregate and a sort, parameterised by the current values of
    the widgets.

    Numeric columns are [float64] columns; they are modelled by the
    IEEE 754 binary64 specification of the Standard Library ([spec_float]
    with [prec = 53], [emax = 1024]), in which the pandas missing-value
    marker of a numeric column is the float NaN. *)

From Stdlib Require Import ZArith List String Ascii Bool Lia Permutation.
From Stdlib Require Import Sorted.
From Stdlib Require Import Floats.SpecFloat.
Import ListNotations.

Local Open Scope Z_scope.

(** ** float64: the dtype of the numeric columns *)

Module F64.

Definition prec : Z := 53.
Definition emax : Z := 1024.

Definition t : Type := spec_float.

Definition nan : t := S754_nan.
Definition inf : t := S754_infinity false.

(** The float a Python [int] converts to (round to nearest even). *)
Definition of_Z (z : Z) : t := binary_normalize prec emax z 0 false.

Definition zero : t := of_Z 0.

Definition div (x y : t) : t := SFdiv prec emax x y.
Definition add (x y : t) : t := SFadd prec emax x y.
Definition sub (x y : t) : t := SFsub prec emax x y.

Definition eqb (x y : t) : bool := SFeqb x y.
Definition ltb (x y : t) : bool := SFltb x y.
Definition leb (x y : t) : bool := SFleb x y.

(** [np.isnan], [np.isinf]. *)
Definition isnan (x : t) : bool :=
  match x with S754_nan => true | _ => false end.

Definition isinf (x : t) : bool :=
  match x with S754_infinity _ => true | _ => false end.

(** [x == 0] (true of 0.0 and of -0.0) and [0 <= x] (false of NaN). *)
Definition is_zero (x : t) : bool := eqb x zero.
Definition nonneg (x : t) : bool := leb zero x.

(** The sign bit of a float that is not NaN. *)
Definition signed (s : bool) (x : t) : Prop :=
  match x with
  | S754_zero s' | S754_infinity s' | S754_finite s' _ _ => s' = s
  | S754_nan => False
  end.

(** A float64 really stored in an array: its mantissa and exponent are
    the canonical ones of binary64. *)
Definition valid (x : t) : bool := valid_binary prec emax x.

End F64.

Definition float64 : Type := F64.t.

(** ** pandas: cells, missing values, Series operations *)

(** A value held by an [object] column: a Python [str], a Python [int]
    (what [fillna(0)] writes there), or the missing marker. *)
Inductive object : Type :=
| PyStr (s : string)
| PyInt (z : Z)
| PyNaN.

(** A cell together with the dtype of the column it sits in. *)
Inductive cell : Type :=
| Obj (o : object)
| Int64 (z : Z)
| Float64 (f : float64).

(** [pd.isna] on a cell. *)
Definition isna (c : cell) : bool :=
  match c with
  | Obj PyNaN => true
  | Float64 f => F64.isnan f
  | _ => false
  end.

Definition notna (c : cell) : bool := negb (isna c).

(** The cell holds the number zero. *)
Definition cell_is_zero (c : cell) : bool :=
  match c with
  | Obj (PyInt z) | Int64 z => Z.eqb z 0
  | Float64 f => F64.is_zero f
  | Obj _ => false
  end.

(** [fillna(value)] column by column: the fill value is cast to the dtype
    of a float64 column and stored as it is in an object column; an int64
    column holds no missing value. *)
Definition fillna_float (value : Z) (f : float64) : float64 :=
  if F64.isnan f then F64.of_Z value else f.

Definition fillna_object (value : Z) (o : object) : object :=
  match o with
  | PyNaN => PyInt value
  | _ => o
  end.

Definition fillna_cell (value : Z) (c : cell) : cell :=
  match c with
  | Obj o => Obj (fillna_object value o)
  | Int64 z => Int64 z
  | Float64 f => Float64 (fillna_float value f)
  end.

(** [series != value], [a / b] and [np.where(cond, x, y)] with a scalar
    [y], element by element.  numpy evaluates the quotient for every row
    before [np.where] selects; a zero divisor gives inf or NaN, not an
    exception. *)
Definition series_ne (s : list float64) (value : Z) : list bool :=
  map (fun a => negb (F64.eqb a (F64.of_Z value))) s.

Fixpoint series_div (a b : list float64) : list float64 :=
  match a, b with
  | x :: a', y :: b' => F64.div x y :: series_div a' b'
  | _, _ => []
  end.

Fixpoint np_where (cond : list bool) (x : list float64) (y : Z)
  : list float64 :=
  match cond, x with
  | c :: cond', v :: x' =>
      (if c then v else F64.of_Z y) :: np_where cond' x' y
  | _, _ => []
  end.

(** [Series.isin(values)] on an object column with a list of strings. *)
Definition isin (values : list string) (o : object) : bool :=
  match o with
  | PyStr s => existsb (String.eqb s) values
  | _ => false
  end.

(** ** The observation table *)

(** One row of the raw table.  The notebook names nine of its columns:
    [country] is an object column, [year] an int64 column, the others
    float64 columns.  [other] holds the cells of the remaining columns, in
    column order; none of them is called [gdp_per_capita], so that the
    assignment of the cleaning step appends a column. *)
Record Obs : Type := mkObs {
  country : object;
  year : Z;
  population : float64;
  gdp : float64;
  co2 : float64;
  co2_per_capita : float64;
  coal_co2 : float64;
  oil_co2 : float64;
  gas_co2 : float64;
  other : list cell
}.

(** One row of the cleaned table: the raw columns and the appended one. *)
Record Row : Type := mkRow {
  obs :> Obs;
  gdp_per_capita : float64
}.

Definition RawFrame : Type := list Obs.
Definition DataFrame : Type := list Row.

(** The cells of a row, in column order. *)
Definition obs_cells (r : Obs) : list cell :=
  [ Obj (country r); Int64 (year r); Float64 (population r);
    Float64 (gdp r); Float64 (co2 r); Float64 (co2_per_capita r);
    Float64 (coal_co2 r); Float64 (oil_co2 r); Float64 (gas_co2 r) ]
  ++ other r.

Definition row_cells (r : Row) : list cell :=
  obs_cells r ++ [ Float64 (gdp_per_capita r) ].

(** *** Cleaning

<<
df = df.fillna(0)
df['gdp_per_capita'] = np.where(df['population']!=0, df['gdp']/df['population'],0)
>> *)

Definition fillna_row (value : Z) (r : Obs) : Obs :=
  {| country := fillna_object value (country r);
     year := year r;
     population := fillna_float value (population r);
     gdp := fillna_float value (gdp r);
     co2 := fillna_float value (co2 r);
     co2_per_capita := fillna_float value (co2_per_capita r);
     coal_co2 := fillna_float value (coal_co2 r);
     oil_co2 := fillna_float value (oil_co2 r);
     gas_co2 := fillna_float value (gas_co2 r);
     other := map (fillna_cell value) (other r) |}.

Definition fillna (value : Z) (df : RawFrame) : RawFrame :=
  map (fillna_row value) df.

(** [df[name] = values]: the new column is attached row by row. *)
Fixpoint set_gdp_per_capita (df : RawFrame) (values : list float64)
  : DataFrame :=
  match df, values with
  | r :: df', v :: values' => mkRow r v :: set_gdp_per_capita df' values'
  | _, _ => []
  end.

Definition assign_gdp_per_capita (df : RawFrame) : DataFrame :=
  set_gdp_per_capita df
    (np_where (series_ne (map population df) 0)
              (series_div (map gdp df) (map population df))
              0).

Definition clean (raw : RawFrame) : DataFrame :=
  let df := fillna 0 raw in
  assign_gdp_per_capita df.

(** What [clean] does to a single row. *)
Definition clean_row (r : Obs) : Row :=
  let r' := fillna_row 0 r in
  mkRow r'
    (if negb (F64.eqb (population r') (F64.of_Z 0))
     then F64.div (gdp r') (population r')
     else F64.of_Z 0).

(** ** groupby, aggregation, sorting *)

Section Sorting.
Context {A : Type}.
Variable leb : A -> A -> bool.

Fixpoint insert (x : A) (l : list A) : list A :=
  match l with
  | [] => [x]
  | y :: l' => if leb x y then x :: l else y :: insert x l'
  end.

(** Insertion sort; ties keep their input order. *)
Fixpoint sort (l : list A) : list A :=
  match l with
  | [] => []
  | x :: l' => insert x (sort l')
  end.
End Sorting.

Section GroupBy.
Context {R K : Type}.
Variable key : R -> K.
Variable key_notna : K -> bool.
Variable key_eqb : K -> K -> bool.
Variable key_leb : K -> K -> bool.

(** The distinct keys, each at its first occurrence. *)
Fixpoint unique (ks : list K) : list K :=
  match ks with
  | [] => []
  | k :: ks' => k :: filter (fun k' => negb (key_eqb k' k)) (unique ks')
  end.

(** [df.groupby(keys)] with the defaults [sort=True], [dropna=True]:
    rows whose key is missing are left out, the groups come in key
    order, and each group keeps its rows in table order. *)
Definition groupby (rows : list R) : list (K * list R) :=
  let rows' := filter (fun r => key_notna (key r)) rows in
  map (fun k => (k, filter (fun r => key_eqb (key r) k) rows'))
      (sort key_leb (unique (map key rows'))).
End GroupBy.

(** Group reductions skip missing values ([skipna]).

    The group sum of a float64 column is a compensated (Kahan) sum, taken
    in table order from 0.0: next to the running sum the library carries
    the rounding error of the previous additions and takes it off the
    next value; a compensation that comes out as NaN (an infinite value
    has been added) is reset to 0.

<<
y = val - compensation
t = sumx + y
compensation = t - sumx - y
if compensation != compensation: compensation = 0
sumx = t
>>

    The group mean is that sum over the number of values, NaN for an
    empty group. *)
Definition skipna (s : list float64) : list float64 :=
  filter (fun x => negb (F64.isnan x)) s.

Definition kahan_step (acc : float64 * float64) (val : float64)
  : float64 * float64 :=
  let y := F64.sub val (snd acc) in
  let t := F64.add (fst acc) y in
  let compensation := F64.sub (F64.sub t (fst acc)) y in
  (t, if F64.isnan compensation then F64.zero else compensation).

Definition series_sum (s : list float64) : float64 :=
  fst (fold_left kahan_step (skipna s) (F64.zero, F64.zero)).

Definition series_mean (s : list float64) : float64 :=
  F64.div (series_sum s) (F64.of_Z (Z.of_nat (List.length (skipna s)))).

(** The compensated sum of a list of values, as a recursion on the list
    with the running sum and the compensation: the reference against
    which the values of the views are stated. *)
Fixpoint compensated_sum_from (sumx compensation : float64)
    (values : list float64) : float64 :=
  match values with
  | [] => sumx
  | val :: values' =>
      let y := F64.sub val compensation in
      let t := F64.add sumx y in
      let c := F64.sub (F64.sub t sumx) y in
      compensated_sum_from t (if F64.isnan c then F64.zero else c) values'
  end.

Definition compensated_sum (values : list float64) : float64 :=
  compensated_sum_from F64.zero F64.zero values.

(** Equality and order of group keys. *)
Definition object_eqb (a b : object) : bool :=
  match a, b with
  | PyStr s, PyStr s' => String.eqb s s'
  | PyInt z, PyInt z' => Z.eqb z z'
  | _, _ => false
  end.

(** Numbers sort before strings, strings by code point. *)
Definition object_leb (a b : object) : bool :=
  match a, b with
  | PyInt z, PyInt z' => Z.leb z z'
  | PyInt _, _ => true
  | PyStr s, PyStr s' => String.leb s s'
  | PyStr _, PyNaN => true
  | PyStr _, PyInt _ => false
  | PyNaN, PyNaN => true
  | PyNaN, _ => false
  end.

Definition object_notna (a : object) : bool :=
  match a with PyNaN => false | _ => true end.

(** [sort_values(by='year')] on a frame with a [year] column.  numpy's
    default sort may order rows of equal year differently; nothing below
    depends on the order of ties. *)
Definition sort_values {A : Type} (by_year : A -> Z) (frame : list A)
  : list A :=
  sort (fun a b => Z.leb (by_year a) (by_year b)) frame.

(** ** Widgets *)

(** The options of the two radio-button groups, as column selectors. *)
Inductive Yaxis : Type := opt_co2 | opt_co2_per_capita.
Inductive Source : Type := opt_coal_co2 | opt_oil_co2 | opt_gas_co2.

Definition yaxis_co2_options : list Yaxis := [opt_co2; opt_co2_per_capita].
Definition yaxis_co2_source_options : list Source :=
  [opt_coal_co2; opt_oil_co2; opt_gas_co2].

Definition yaxis_name (y : Yaxis) : string :=
  match y with
  | opt_co2 => "co2"
  | opt_co2_per_capita => "co2_per_capita"
  end%string.

Definition source_name (c : Source) : string :=
  match c with
  | opt_coal_co2 => "coal_co2"
  | opt_oil_co2 => "oil_co2"
  | opt_gas_co2 => "gas_co2"
  end%string.

(** [df[name]] for the selected option. *)
Definition yaxis_column (y : Yaxis) (r : Row) : float64 :=
  match y with
  | opt_co2 => co2 r
  | opt_co2_per_capita => co2_per_capita r
  end.

Definition source_column (c : Source) (r : Row) : float64 :=
  match c with
  | opt_coal_co2 => coal_co2 r
  | opt_oil_co2 => oil_co2 r
  | opt_gas_co2 => gas_co2 r
  end.

(** The current values of the three widgets. *)
Record Widgets : Type := mkWidgets {
  year_slider : Z;
  yaxis_co2 : Yaxis;
  yaxis_co2_source : Source
}.

(** [IntSlider(start=1750, end=2020, step=5, value=1850)]; a radio-button
    group starts on its first option. *)
Definition slider_start : Z := 1750.
Definition slider_end : Z := 2020.
Definition slider_step : Z := 5.

Definition initial_widgets : Widgets :=
  {| year_slider := 1850;
     yaxis_co2 := opt_co2;
     yaxis_co2_source := opt_coal_co2 |}.

(** ** The three pipelines *)

Definition continents : list string :=
  ["World"; "Asia"; "Oceania"; "Europe"; "Africa"; "North America";
   "South America"; "Antarctica"]%string.

Definition continents_excl_world : list string :=
  ["Asia"; "Oceania"; "Europe"; "Africa"; "North America";
   "South America"; "Antarctica"]%string.

(** Rows of the views, after [.to_frame().reset_index()]: the group keys
    become columns, next to the aggregated column. *)
Record TimeSeriesRow : Type := mkTimeSeriesRow {
  ts_country : object;
  ts_year : Z;
  ts_value : float64
}.

Record ScatterRow : Type := mkScatterRow {
  sc_country : object;
  sc_year : Z;
  sc_gdp_per_capita : float64;
  sc_co2 : float64
}.

Record BarRow : Type := mkBarRow {
  bar_year : Z;
  bar_country : object;
  bar_value : float64
}.

(** Keys of the three [groupby] calls. *)
Definition key_country_year (r : Row) : object * Z := (country r, year r).

Definition country_year_notna (k : object * Z) : bool := object_notna (fst k).

Definition country_year_eqb (a b : object * Z) : bool :=
  object_eqb (fst a) (fst b) && Z.eqb (snd a) (snd b).

Definition country_year_leb (a b : object * Z) : bool :=
  if object_eqb (fst a) (fst b) then Z.leb (snd a) (snd b)
  else object_leb (fst a) (fst b).

Definition key_year_country (r : Row) : Z * object := (year r, country r).

Definition year_country_notna (k : Z * object) : bool := object_notna (snd k).

Definition year_country_eqb (a b : Z * object) : bool :=
  Z.eqb (fst a) (fst b) && object_eqb (snd a) (snd b).

Definition year_country_leb (a b : Z * object) : bool :=
  if Z.eqb (fst a) (fst b) then object_leb (snd a) (snd b)
  else Z.leb (fst a) (fst b).

Definition key_country_year_gdp (r : Row) : object * Z * float64 :=
  (country r, year r, gdp_per_capita r).

Definition country_year_gdp_notna (k : object * Z * float64) : bool :=
  object_notna (fst (fst k)) && negb (F64.isnan (snd k)).

Definition country_year_gdp_eqb (a b : object * Z * float64) : bool :=
  country_year_eqb (fst a) (fst b) && F64.eqb (snd a) (snd b).

Definition country_year_gdp_leb (a b : object * Z * float64) : bool :=
  if country_year_eqb (fst a) (fst b) then F64.leb (snd a) (snd b)
  else country_year_leb (fst a) (fst b).

(**
<<
co2_pipeline = (
    idf[(idf.year <= year_slider) & (idf.country.isin(continents))]
    .groupby(['country', 'year'])[yaxis_co2].mean()
    .to_frame().reset_index().sort_values(by='year').reset_index(drop=True))
>> *)
Definition co2_pipeline (idf : DataFrame) (w : Widgets)
  : list TimeSeriesRow :=
  let selected :=
    filter (fun r : Row => (year r <=? year_slider w)
                     && isin continents (country r)) idf in
  let grouped :=
    groupby key_country_year country_year_notna country_year_eqb
            country_year_leb selected in
  let frame :=
    map (fun kg =>
           {| ts_country := fst (fst kg);
              ts_year := snd (fst kg);
              ts_value :=
                series_mean (map (yaxis_column (yaxis_co2 w)) (snd kg)) |})
        grouped in
  sort_values ts_year frame.

(**
<<
co2_vs_gdp_scatterplot_pipeline = (
    idf[(idf.year == year_slider) & (~ (idf.country.isin(continents)))]
    .groupby(['country', 'year', 'gdp_per_capita'])['co2'].mean()
    .to_frame().reset_index().sort_values(by='year').reset_index(drop=True))
>> *)
Definition co2_vs_gdp_scatterplot_pipeline (idf : DataFrame) (w : Widgets)
  : list ScatterRow :=
  let selected :=
    filter (fun r : Row => (year r =? year_slider w)
                     && negb (isin continents (country r))) idf in
  let grouped :=
    groupby key_country_year_gdp country_year_gdp_notna
            country_year_gdp_eqb country_year_gdp_leb selected in
  let frame :=
    map (fun kg =>
           {| sc_country := fst (fst (fst kg));
              sc_year := snd (fst (fst kg));
              sc_gdp_per_capita := snd (fst kg);
              sc_co2 := series_mean (map (fun r : Row => co2 r) (snd kg)) |})
        grouped in
  sort_values sc_year frame.

(**
<<
co2_source_bar_pipeline = (
    idf[(idf.year == year_slider) & (idf.country.isin(continents_excl_world))]
    .groupby(['year', 'country'])[yaxis_co2_source].sum()
    .to_frame().reset_index().sort_values(by='year').reset_index(drop=True))
>> *)
Definition co2_source_bar_pipeline (idf : DataFrame) (w : Widgets)
  : list BarRow :=
  let selected :=
    filter (fun r : Row => (year r =? year_slider w)
                     && isin continents_excl_world (country r)) idf in
  let grouped :=
    groupby key_year_country year_country_notna year_country_eqb
            year_country_leb selected in
  let frame :=
    map (fun kg =>
           {| bar_year := fst (fst kg);
              bar_country := snd (fst kg);
              bar_value :=
                series_sum
                  (map (source_column (yaxis_co2_source w)) (snd kg)) |})
        grouped in
  sort_values bar_year frame.

(** The rows of the table that feed the bar of one country: those of the
    selected year and of that country. *)
Definition bar_rows (idf : DataFrame) (w : Widgets) (c : object)
  : list Row :=
  filter (fun r : Row => (year r =? year_slider w) && object_eqb (country r) c)
         idf.

(** ** The notebook kernel

    Frames are objects on the kernel heap and names are bound to their
    addresses.  [df.fillna(0)] builds a new frame, to which [df] is
    rebound; [df['gdp_per_capita'] = ...] writes into the frame [df] is
    bound to; [idf = df.interactive()] wraps that same frame, not a copy;
    boolean indexing, [groupby], [mean], [sum], [to_frame], [reset_index]
    and [sort_values] each return a new frame, so a pipeline leaves its
    result in a fresh object.  A widget event stores the new value and
    re-evaluates the three pipelines. *)

Inductive pyobj : Type :=
| RawTable (t : RawFrame)
| Table (t : DataFrame)
| TimeSeriesFrame (t : list TimeSeriesRow)
| ScatterFrame (t : list ScatterRow)
| BarFrame (t : list BarRow)
| IntSeries (s : list Z)
| ObjectSeries (s : list object)
| BoolSeries (s : list bool).

Definition Heap : Type := list pyobj.

(** A new object goes to the next free address. *)
Definition alloc (h : Heap) (o : pyobj) : Heap * nat :=
  (h ++ [o], List.length h).

(** Writing into the object at an address. *)
Fixpoint update (h : Heap) (a : nat) (o : pyobj) : Heap :=
  match h, a with
  | [], _ => []
  | _ :: h', O => o :: h'
  | x :: h', S a' => x :: update h' a' o
  end.

Record Notebook : Type := mkNotebook {
  heap : Heap;
  df : nat;
  idf : nat;
  widgets : Widgets;
  co2_pipeline_view : nat;
  co2_vs_gdp_scatterplot_view : nat;
  co2_source_bar_view : nat
}.

Inductive Event : Type :=
| SetYearSlider (v : Z)
| SetYaxisCo2 (y : Yaxis)
| SetYaxisCo2Source (c : Source).

Definition set_widget (w : Widgets) (ev : Event) : Widgets :=
  match ev with
  | SetYearSlider v =>
      {| year_slider := v; yaxis_co2 := yaxis_co2 w;
         yaxis_co2_source := yaxis_co2_source w |}
  | SetYaxisCo2 y =>
      {| year_slider := year_slider w; yaxis_co2 := y;
         yaxis_co2_source := yaxis_co2_source w |}
  | SetYaxisCo2Source c =>
      {| year_slider := year_slider w; yaxis_co2 := yaxis_co2 w;
         yaxis_co2_source := c |}
  end.

(** The cells up to the cleaning step: the heap they leave and the
    address [df] is bound to. *)
Definition load_and_clean (raw : RawFrame) : option (Heap * nat) :=
  let '(h0, a0) := alloc [] (RawTable raw) in
  match nth_error h0 a0 with
  | Some (RawTable t0) =>
      let '(h1, a1) := alloc h0 (RawTable (fillna 0 t0)) in
      match nth_error h1 a1 with
      | Some (RawTable t1) =>
          Some (update h1 a1 (Table (assign_gdp_per_capita t1)), a1)
      | _ => None
      end
  | _ => None
  end.

(** *** The method calls of the pipelines

    Each call reads its receiver and its arguments on the heap and
    returns a new object; a receiver of another type raises.  None of the
    calls in the notebook is given [inplace=True]. *)

Definition new_object (h : Heap) (result : option pyobj)
  : option (Heap * nat) :=
  match result with
  | Some o => Some (alloc h o)
  | None => None
  end.

Definition and_then {A B : Type} (m : option A) (k : A -> option B)
  : option B :=
  match m with
  | Some x => k x
  | None => None
  end.

Notation "' pat <- m ;; k" :=
  (and_then m (fun pat => k))
    (at level 61, pat pattern, m at next level, right associativity).

(** [idf.year], [idf.country]. *)
Definition getattr_year (h : Heap) (a : nat) : option (Heap * nat) :=
  new_object h
    match nth_error h a with
    | Some (Table t) => Some (IntSeries (map (fun r : Row => year r) t))
    | _ => None
    end.

Definition getattr_country (h : Heap) (a : nat) : option (Heap * nat) :=
  new_object h
    match nth_error h a with
    | Some (Table t) => Some (ObjectSeries (map (fun r : Row => country r) t))
    | _ => None
    end.

(** [series <= value], [series == value]. *)
Definition series_le (h : Heap) (s : nat) (value : Z)
  : option (Heap * nat) :=
  new_object h
    match nth_error h s with
    | Some (IntSeries ys) => Some (BoolSeries (map (fun y => y <=? value) ys))
    | _ => None
    end.

Definition series_eq (h : Heap) (s : nat) (value : Z)
  : option (Heap * nat) :=
  new_object h
    match nth_error h s with
    | Some (IntSeries ys) => Some (BoolSeries (map (fun y => y =? value) ys))
    | _ => None
    end.

(** [series.isin(values)], [~ mask], [mask1 & mask2]. *)
Definition series_isin (h : Heap) (s : nat) (values : list string)
  : option (Heap * nat) :=
  new_object h
    match nth_error h s with
    | Some (ObjectSeries os) => Some (BoolSeries (map (isin values) os))
    | _ => None
    end.

Definition series_invert (h : Heap) (m : nat) : option (Heap * nat) :=
  new_object h
    match nth_error h m with
    | Some (BoolSeries bs) => Some (BoolSeries (map negb bs))
    | _ => None
    end.

Fixpoint mask_and (m1 m2 : list bool) : list bool :=
  match m1, m2 with
  | b1 :: m1', b2 :: m2' => (b1 && b2) :: mask_and m1' m2'
  | _, _ => []
  end.

Definition series_and (h : Heap) (m1 m2 : nat) : option (Heap * nat) :=
  new_object h
    match nth_error h m1, nth_error h m2 with
    | Some (BoolSeries b1), Some (BoolSeries b2) =>
        Some (BoolSeries (mask_and b1 b2))
    | _, _ => None
    end.

(** [idf[mask]]: the rows at which the mask is true, in a new frame. *)
Fixpoint select {A : Type} (rows : list A) (mask : list bool) : list A :=
  match rows, mask with
  | r :: rows', b :: mask' =>
      if b then r :: select rows' mask' else select rows' mask'
  | _, _ => []
  end.

Definition getitem (h : Heap) (a m : nat) : option (Heap * nat) :=
  new_object h
    match nth_error h a, nth_error h m with
    | Some (Table t), Some (BoolSeries bs) => Some (Table (select t bs))
    | _, _ => None
    end.

(** [.groupby(['country', 'year'])[yaxis_co2].mean()],
    [.groupby(['country', 'year', 'gdp_per_capita'])['co2'].mean()] and
    [.groupby(['year', 'country'])[yaxis_co2_source].sum()]: a Series
    indexed by the group keys. *)
Definition groupby_country_year_mean (h : Heap) (a : nat) (y : Yaxis)
  : option (Heap * nat) :=
  new_object h
    match nth_error h a with
    | Some (Table t) =>
        Some (TimeSeriesFrame
                (map (fun kg =>
                        {| ts_country := fst (fst kg);
                           ts_year := snd (fst kg);
                           ts_value :=
                             series_mean (map (yaxis_column y) (snd kg)) |})
                     (groupby key_country_year country_year_notna
                              country_year_eqb country_year_leb t)))
    | _ => None
    end.

Definition groupby_country_year_gdp_mean (h : Heap) (a : nat)
  : option (Heap * nat) :=
  new_object h
    match nth_error h a with
    | Some (Table t) =>
        Some (ScatterFrame
                (map (fun kg =>
                        {| sc_country := fst (fst (fst kg));
                           sc_year := snd (fst (fst kg));
                           sc_gdp_per_capita := snd (fst kg);
                           sc_co2 :=
                             series_mean
                               (map (fun r : Row => co2 r) (snd kg)) |})
                     (groupby key_country_year_gdp country_year_gdp_notna
                              country_year_gdp_eqb country_year_gdp_leb t)))
    | _ => None
    end.

Definition groupby_year_country_sum (h : Heap) (a : nat) (c : Source)
  : option (Heap * nat) :=
  new_object h
    match nth_error h a with
    | Some (Table t) =>
        Some (BarFrame
                (map (fun kg =>
                        {| bar_year := fst (fst kg);
                           bar_country := snd (fst kg);
                           bar_value :=
                             series_sum (map (source_column c) (snd kg)) |})
                     (groupby key_year_country year_country_notna
                              year_country_eqb year_country_leb t)))
    | _ => None
    end.

(** [.to_frame()], [.reset_index()] and [.reset_index(drop=True)] keep
    the rows and [.sort_values(by='year')] reorders them; each returns a
    new frame. *)
Definition frame_method
    (f_ts : list TimeSeriesRow -> list TimeSeriesRow)
    (f_sc : list ScatterRow -> list ScatterRow)
    (f_bar : list BarRow -> list BarRow)
    (h : Heap) (a : nat) : option (Heap * nat) :=
  new_object h
    match nth_error h a with
    | Some (TimeSeriesFrame t) => Some (TimeSeriesFrame (f_ts t))
    | Some (ScatterFrame t) => Some (ScatterFrame (f_sc t))
    | Some (BarFrame t) => Some (BarFrame (f_bar t))
    | _ => None
    end.

Definition to_frame : Heap -> nat -> option (Heap * nat) :=
  frame_method (fun t => t) (fun t => t) (fun t => t).

Definition reset_index : Heap -> nat -> option (Heap * nat) :=
  frame_method (fun t => t) (fun t => t) (fun t => t).

Definition sort_values_by_year : Heap -> nat -> option (Heap * nat) :=
  frame_method (sort_values ts_year) (sort_values sc_year)
               (sort_values bar_year).

(** The three pipelines, call by call, on the frame at address [idf]. *)
Definition eval_co2_pipeline (h : Heap) (idf : nat) (w : Widgets)
  : option (Heap * nat) :=
  '(h, years) <- getattr_year h idf ;;
  '(h, m1) <- series_le h years (year_slider w) ;;
  '(h, countries) <- getattr_country h idf ;;
  '(h, m2) <- series_isin h countries continents ;;
  '(h, m) <- series_and h m1 m2 ;;
  '(h, selected) <- getitem h idf m ;;
  '(h, means) <- groupby_country_year_mean h selected (yaxis_co2 w) ;;
  '(h, frame) <- to_frame h means ;;
  '(h, frame) <- reset_index h frame ;;
  '(h, frame) <- sort_values_by_year h frame ;;
  reset_index h frame.

Definition eval_co2_vs_gdp_scatterplot_pipeline
    (h : Heap) (idf : nat) (w : Widgets) : option (Heap * nat) :=
  '(h, years) <- getattr_year h idf ;;
  '(h, m1) <- series_eq h years (year_slider w) ;;
  '(h, countries) <- getattr_country h idf ;;
  '(h, m2) <- series_isin h countries continents ;;
  '(h, m2) <- series_invert h m2 ;;
  '(h, m) <- series_and h m1 m2 ;;
  '(h, selected) <- getitem h idf m ;;
  '(h, means) <- groupby_country_year_gdp_mean h selected ;;
  '(h, frame) <- to_frame h means ;;
  '(h, frame) <- reset_index h frame ;;
  '(h, frame) <- sort_values_by_year h frame ;;
  reset_index h frame.

Definition eval_co2_source_bar_pipeline
    (h : Heap) (idf : nat) (w : Widgets) : option (Heap * nat) :=
  '(h, years) <- getattr_year h idf ;;
  '(h, m1) <- series_eq h years (year_slider w) ;;
  '(h, countries) <- getattr_country h idf ;;
  '(h, m2) <- series_isin h countries continents_excl_world ;;
  '(h, m) <- series_and h m1 m2 ;;
  '(h, selected) <- getitem h idf m ;;
  '(h, sums) <- groupby_year_country_sum h selected (yaxis_co2_source w) ;;
  '(h, frame) <- to_frame h sums ;;
  '(h, frame) <- reset_index h frame ;;
  '(h, frame) <- sort_values_by_year h frame ;;
  reset_index h frame.

(** Evaluating the three pipelines on the frame wrapped by [idf]. *)
Definition evaluate (h : Heap) (a_df a_idf : nat) (w : Widgets)
  : option Notebook :=
  '(h1, v1) <- eval_co2_pipeline h a_idf w ;;
  '(h2, v2) <- eval_co2_vs_gdp_scatterplot_pipeline h1 a_idf w ;;
  '(h3, v3) <- eval_co2_source_bar_pipeline h2 a_idf w ;;
  Some {| heap := h3; df := a_df; idf := a_idf; widgets := w;
          co2_pipeline_view := v1;
          co2_vs_gdp_scatterplot_view := v2;
          co2_source_bar_view := v3 |}.

Definition step (nb : Notebook) (ev : Event) : option Notebook :=
  evaluate (heap nb) (df nb) (idf nb) (set_widget (widgets nb) ev).

(** Running the notebook top to bottom on a loaded table. *)
Definition start (raw : RawFrame) : option Notebook :=
  match load_and_clean raw with
  | Some (h, a) => evaluate h a a initial_widgets
  | None => None
  end.

Fixpoint run (nb : Notebook) (evs : list Event) : option Notebook :=
  match evs with
  | [] => Some nb
  | ev :: evs' =>
      match step nb ev with
      | Some nb' => run nb' evs'
      | None => None
      end
  end.

Definition session (raw : RawFrame) (evs : list Event) : option Notebook :=
  match start raw with
  | Some nb => run nb evs
  | None => None
  end.

(** The heap [h'] still holds every object of [h], unchanged. *)
Definition extends (h h' : Heap) : Prop :=
  forall a o, nth_error h a = Some o -> nth_error h' a = Some o.

(** [df] and [idf] name frame [t], and the views on display are the
    pipelines on [t] at the current widget values. *)
Definition up_to_date (t : DataFrame) (nb : Notebook) : Prop :=
  idf nb = df nb /\
  nth_error (heap nb) (df nb) = Some (Table t) /\
  nth_error (heap nb) (co2_pipeline_view nb)
  = Some (TimeSeriesFrame (co2_pipeline t (widgets nb))) /\
  nth_error (heap nb) (co2_vs_gdp_scatterplot_view nb)
  = Some (ScatterFrame (co2_vs_gdp_scatterplot_pipeline t (widgets nb))) /\
  nth_error (heap nb) (co2_source_bar_view nb)
  = Some (BarFrame (co2_source_bar_pipeline t (widgets nb))).

(** ** Sample tables *)

Definition sample_obs (name : string) (y : Z) (pop g v : float64) : Obs :=
  {| country := PyStr name; year := y; population := pop; gdp := g;
     co2 := v; co2_per_capita := v; coal_co2 := v;
     oil_co2 := F64.of_Z 2; gas_co2 := F64.of_Z 3;
     other := [Obj PyNaN; Float64 F64.nan; Obj (PyStr "OWID")] |}.

(** A row whose [gdp] and [population] are both [inf], as [read_csv]
    parses the fields [inf,inf]. *)
Definition obs_inf_inf : Obs :=
  sample_obs "Atlantis" 1850 F64.inf F64.inf (F64.of_Z 1).

Definition sample_raw : RawFrame :=
  [ sample_obs "Asia" 1850 (F64.of_Z 100) (F64.of_Z 1000) (F64.of_Z 5);
    sample_obs "Asia" 1850 (F64.of_Z 0) (F64.of_Z 1000) (F64.of_Z 7);
    sample_obs "World" 1800 F64.nan (F64.of_Z 3) (F64.of_Z 1);
    sample_obs "Chad" 1850 (F64.of_Z 3) F64.nan (F64.of_Z 9);
    sample_obs "Europe" 1850 (F64.of_Z 3) F64.nan F64.nan;
    sample_obs "Asia" 1700 (F64.of_Z 3) (F64.of_Z 4) (F64.of_Z 11) ].

(** [df[name]] on the raw table, for the options of the source buttons. *)
Definition raw_source_column (c : Source) (r : Obs) : float64 :=
  match c with
  | opt_coal_co2 => coal_co2 r
  | opt_oil_co2 => oil_co2 r
  | opt_gas_co2 => gas_co2 r
  end.

(** ** Previews *)

(** [frame.head(n)]: the first [n] rows. *)
Definition head {A : Type} (n : nat) (frame : list A) : list A :=
  firstn n frame.

(** [co2_pipeline.head(n=10)]. *)
Definition co2_pipeline_head (idf : DataFrame) (w : Widgets)
  : list TimeSeriesRow :=
  head 10 (co2_pipeline idf w).

(** The rows of the table of one country and one year. *)
Definition rows_of (idf : DataFrame) (c : object) (y : Z) : list Row :=
  filter (fun r : Row => (year r =? y) && object_eqb (country r) c) idf.

(** Twelve yearly rows of one region, latest year first. *)
Definition sample_long : RawFrame :=
  map (fun k => sample_obs "World" (1830 - Z.of_nat k) (F64.of_Z 1)
                  (F64.of_Z 1) (F64.of_Z (Z.of_nat k)))
      (seq 0 12).

(** ** The button-group views with a tooltip

    [RadioButtonGroupView] and [CheckboxButtonGroupView] extend the
    BokehJS views of the same name with an optional tooltip that is shown
    while the pointer is over the widget.  The two classes have the same
    body.  The base class is not part of the repository: its methods are
    recorded as calls, and the views its [children()] yields are a
    parameter. *)

Module ButtonGroupView.

(** A [Tooltip] model; [visible] is the attribute the view sets.  Tooltip
    models are objects in a store, referred to by their position: the
    widget model and the tooltip view refer to the same object. *)
Record Tooltip : Type := mkTooltip { visible : bool }.

Definition Ref : Type := nat.

(** A [TooltipView], built by [build_view(tooltip, {parent: this})]. *)
Record TooltipView : Type := mkTooltipView { tv_model : Ref }.

Inductive MouseEvent : Type := mouseenter | mouseleave.

Definition MouseEvent_eqb (a b : MouseEvent) : bool :=
  match a, b with
  | mouseenter, mouseenter | mouseleave, mouseleave => true
  | _, _ => false
  end.

(** Calls made to the base class, to the tooltip view and to the tooltip
    model, in the order they are made. *)
Inductive Call : Type :=
| SuperLazyInitialize
| BuildView (t : Ref)
| SuperRender
| SuperRemove
| TooltipRemove (tv : TooltipView)
| SetV (t : Ref) (value : bool).

(** The view: [model_tooltip] is [this.model.tooltip], [tooltip] is
    [this.tooltip] ([None] for null and for the undefined field of a new
    view), [listeners] are the listeners added to [this.el], each with the
    argument it passes to [toggle]. *)
Record View : Type := mkView {
  tooltips : list Tooltip;
  model_tooltip : option Ref;
  tooltip : option TooltipView;
  listeners : list (MouseEvent * bool);
  calls : list Call
}.

(** [new RadioButtonGroup(attrs)]: the property [tooltip] is
    [Nullable(Ref(Tooltip))] with default null. *)
Definition new_model (attrs_tooltip : option (option Ref)) : option Ref :=
  match attrs_tooltip with
  | Some t => t
  | None => None
  end.

Definition new_view (store : list Tooltip) (model : option Ref) : View :=
  {| tooltips := store; model_tooltip := model; tooltip := None;
     listeners := []; calls := [] |}.

Definition call (c : Call) (v : View) : View :=
  {| tooltips := tooltips v; model_tooltip := model_tooltip v;
     tooltip := tooltip v; listeners := listeners v;
     calls := calls v ++ [c] |}.

(** [*children()]: the children of the base class, then the tooltip view
    if there is one. *)
Inductive Child : Type :=
| BaseChild (id : nat)
| TooltipChild (tv : TooltipView).

Definition children (super_children : list Child) (v : View) : list Child :=
  super_children
  ++ match tooltip v with
     | Some tv => [TooltipChild tv]
     | None => []
     end.

(** [lazy_initialize()]. *)
Definition lazy_initialize (v : View) : View :=
  let v := call SuperLazyInitialize v in
  match model_tooltip v with
  | Some t =>
      let v := call (BuildView t) v in
      {| tooltips := tooltips v; model_tooltip := model_tooltip v;
         tooltip := Some (mkTooltipView t); listeners := listeners v;
         calls := calls v |}
  | None => v
  end.

(** [remove()]. *)
Definition remove (v : View) : View :=
  let v := match tooltip v with
           | Some tv => call (TooltipRemove tv) v
           | None => v
           end in
  call SuperRemove v.

(** [render()]: two more listeners on [this.el]. *)
Definition render (v : View) : View :=
  let v := call SuperRender v in
  {| tooltips := tooltips v; model_tooltip := model_tooltip v;
     tooltip := tooltip v;
     listeners := listeners v ++ [(mouseenter, true); (mouseleave, false)];
     calls := calls v |}.

(** [model.setv({visible})] on the tooltip at a reference. *)
Fixpoint setv (store : list Tooltip) (t : Ref) (value : bool)
  : list Tooltip :=
  match store, t with
  | [], _ => []
  | _ :: store', O => mkTooltip value :: store'
  | x :: store', S t' => x :: setv store' t' value
  end.

(** [toggle(visible)]: [this.tooltip?.model.setv({visible})], reading
    [this.tooltip] when the listener runs. *)
Definition toggle (value : bool) (v : View) : View :=
  match tooltip v with
  | Some tv =>
      let v := call (SetV (tv_model tv) value) v in
      {| tooltips := setv (tooltips v) (tv_model tv) value;
         model_tooltip := model_tooltip v; tooltip := tooltip v;
         listeners := listeners v; calls := calls v |}
  | None => v
  end.

(** The browser delivers an event to the listeners of its type, in the
    order they were added. *)
Definition dispatch (ev : MouseEvent) (v : View) : View :=
  fold_left
    (fun v l => if MouseEvent_eqb (fst l) ev then toggle (snd l) v else v)
    (listeners v) v.

(** What happens to a view during its life. *)
Inductive Op : Type :=
| OpLazyInitialize
| OpRender
| OpMouse (ev : MouseEvent)
| OpRemove.

Definition apply_op (v : View) (op : Op) : View :=
  match op with
  | OpLazyInitialize => lazy_initialize v
  | OpRender => render v
  | OpMouse ev => dispatch ev v
  | OpRemove => remove v
  end.

Definition run (ops : list Op) (v : View) : View := fold_left apply_op ops v.

Definition is_lazy_initialize (op : Op) : bool :=
  match op with OpLazyInitialize => true | _ => false end.

Definition is_render (op : Op) : bool :=
  match op with OpRender => true | _ => false end.

Definition is_setv (c : Call) : bool :=
  match c with SetV _ _ => true | _ => false end.

Definition is_enter (ev : MouseEvent) : bool :=
  match ev with mouseenter => true | mouseleave => false end.

(** The listeners added by a series of calls of [render]: each call adds
    one that passes [true] on mouseenter and one that passes [false] on
    mouseleave. *)
Definition render_listeners (n : list Op) : list (MouseEvent * bool) :=
  flat_map (fun _ => [(mouseenter, true); (mouseleave, false)]) n.

(** The flag of the tooltip at a reference. *)
Definition visible_at (v : View) (t : Ref) : option bool :=
  option_map visible (nth_error (tooltips v) t).

End ButtonGroupView.

(** ** The path of the sidebar image

<<
notebook_dir = os.path.dirname(os.path.abspath("__file__"))
image_path = os.path.join(notebook_dir, "co2_dashboard_practice/img/randomimage.png")
>>

    [os.path] is [posixpath]; its functions are modelled on strings as the
    library defines them.  The working directory [os.getcwd()] is a
    parameter. *)

Module posixpath.

Definition sep : ascii := "/"%char.

Definition startswith_sep (s : string) : bool :=
  match s with
  | String c _ => Ascii.eqb c sep
  | EmptyString => false
  end.

Fixpoint endswith_sep (s : string) : bool :=
  match s with
  | EmptyString => false
  | String c EmptyString => Ascii.eqb c sep
  | String _ s' => endswith_sep s'
  end.

Fixpoint contains_sep (s : string) : bool :=
  match s with
  | EmptyString => false
  | String c s' => Ascii.eqb c sep || contains_sep s'
  end.

Fixpoint all_sep (s : string) : bool :=
  match s with
  | EmptyString => true
  | String c s' => Ascii.eqb c sep && all_sep s'
  end.

(** [isabs(s)]. *)
Definition isabs (s : string) : bool := startswith_sep s.

(** [join(a, b)]: an absolute [b] replaces [a]; otherwise [b] is added
    after a separator, unless [a] is empty or ends with one. *)
Definition join (a b : string) : string :=
  if startswith_sep b then b
  else if String.eqb a "" || endswith_sep a then a ++ b
  else a ++ String sep b.

(** [s.split('/')]. *)
Fixpoint split (s : string) : list string :=
  match s with
  | EmptyString => [EmptyString]
  | String c s' =>
      if Ascii.eqb c sep then EmptyString :: split s'
      else match split s' with
           | x :: xs => String c x :: xs
           | [] => [String c EmptyString]
           end
  end.

(** One turn of the loop of [normpath]: empty and "." components are
    skipped, ".." drops the component before it (or stays, at the front of
    a relative path or after another ".."), any other component is kept. *)
Definition normpath_step (initial_slashes : nat) (new_comps : list string)
    (comp : string) : list string :=
  if String.eqb comp "" || String.eqb comp "." then new_comps
  else if negb (String.eqb comp "..")
          || (Nat.eqb initial_slashes 0
              && match new_comps with [] => true | _ => false end)
          || match new_comps with
             | [] => false
             | _ => String.eqb (List.last new_comps ""%string) ".."
             end
       then new_comps ++ [comp]
       else removelast new_comps.

Fixpoint slashes (n : nat) : string :=
  match n with
  | O => EmptyString
  | S n' => String sep (slashes n')
  end.

(** [normpath(path)]. *)
Definition normpath (path : string) : string :=
  if String.eqb path "" then "."%string
  else
    let initial_slashes :=
      if startswith_sep path then
        match path with
        | String _ (String c2 rest) =>
            if Ascii.eqb c2 sep && negb (startswith_sep rest)
            then 2%nat else 1%nat
        | _ => 1%nat
        end
      else 0%nat in
    let comps :=
      fold_left (normpath_step initial_slashes) (split path) [] in
    let path' := (slashes initial_slashes ++ String.concat "/" comps)%string in
    if String.eqb path' "" then "."%string else path'.

(** [abspath(path)], given the working directory. *)
Definition abspath (cwd path : string) : string :=
  normpath (if isabs path then path else join cwd path).

(** [p[:p.rfind('/') + 1]]: the part of [p] up to its last separator. *)
Fixpoint head_of (p : string) : string :=
  match p with
  | EmptyString => EmptyString
  | String c p' =>
      if contains_sep p' then String c (head_of p')
      else if Ascii.eqb c sep then String c EmptyString
      else EmptyString
  end.

(** [s.rstrip('/')]. *)
Fixpoint rstrip_sep (s : string) : string :=
  match s with
  | EmptyString => EmptyString
  | String c s' =>
      match rstrip_sep s' with
      | EmptyString =>
          if Ascii.eqb c sep then EmptyString else String c EmptyString
      | r => String c r
      end
  end.

(** [dirname(p)]. *)
Definition dirname (p : string) : string :=
  let head := head_of p in
  if negb (String.eqb head "") && negb (all_sep head)
  then rstrip_sep head
  else head.

(** An absolute path without a trailing separator, from its components:
    what [os.getcwd()] returns below the root. *)
Fixpoint path_of (comps : list string) : string :=
  match comps with
  | [] => EmptyString
  | c :: comps' => String sep (c ++ path_of comps')
  end.

(** A component of such a path: a name other than "." and "..". *)
Definition component (c : string) : bool :=
  negb (String.eqb c "") && negb (contains_sep c)
  && negb (String.eqb c ".") && negb (String.eqb c "..").

End posixpath.

Definition notebook_dir (cwd : string) : string :=
  posixpath.dirname (posixpath.abspath cwd "__file__").

Definition image_path (cwd : string) : string :=
  posixpath.join (notebook_dir cwd)
    "co2_dashboard_practice/img/randomimage.png".

(** * Properties *)

Lemma clean_rowwise (raw : RawFrame) : clean raw = map clean_row raw.
Proof.
  unfold clean, assign_gdp_per_capita, fillna.
  induction raw as [| r raw IH]; simpl; [reflexivity|].
  f_equal. exact IH.
Qed.

(** The two examples of the cleaning step: 1000 / 100 is 10, and a zero
    population gives 0. *)
Example gdp_per_capita_1000_100 :
  map gdp_per_capita
      (clean [sample_obs "Asia" 1850 (F64.of_Z 100) (F64.of_Z 1000)
                (F64.of_Z 5)])
  = [F64.of_Z 10].
Proof. reflexivity. Qed.

Example gdp_per_capita_1000_0 :
  map gdp_per_capita
      (clean [sample_obs "Asia" 1850 (F64.of_Z 0) (F64.of_Z 1000)
                (F64.of_Z 5)])
  = [F64.of_Z 0].
Proof. reflexivity. Qed.

(** The floats of the sample rows are binary64 numbers. *)
Example sample_floats_valid :
  forallb F64.valid
    [F64.inf; F64.nan; F64.zero; F64.of_Z 3; F64.of_Z 100; F64.of_Z 1000]
  = true.
Proof. reflexivity. Qed.

(** ** IEEE 754 facts used below *)

Module F64Facts.

Lemma of_Z_0 : F64.of_Z 0 = S754_zero false.
Proof. reflexivity. Qed.

Lemma shr_1_nonneg mrs : 0 <= shr_m mrs -> 0 <= shr_m (shr_1 mrs).
Proof.
  destruct mrs as [m r s]; simpl.
  destruct m as [| p | p]; simpl; intros H; try lia.
  destruct p; simpl; lia.
Qed.

Lemma iter_pos_shr_1_nonneg p :
  forall mrs, 0 <= shr_m mrs -> 0 <= shr_m (iter_pos shr_1 p mrs).
Proof.
  induction p as [p IH | p IH |]; simpl; intros mrs H.
  - apply IH, IH, shr_1_nonneg, H.
  - apply IH, IH, H.
  - apply shr_1_nonneg, H.
Qed.

Lemma shr_nonneg mrs e n :
  0 <= shr_m mrs -> 0 <= shr_m (fst (shr mrs e n)).
Proof.
  intros H. destruct n; simpl; auto. apply iter_pos_shr_1_nonneg, H.
Qed.

Lemma shr_record_of_loc_m m l : shr_m (shr_record_of_loc m l) = m.
Proof. destruct l as [| []]; reflexivity. Qed.

Lemma shr_fexp_nonneg m e l :
  0 <= m -> 0 <= shr_m (fst (shr_fexp F64.prec F64.emax m e l)).
Proof.
  intros H. unfold shr_fexp. apply shr_nonneg.
  rewrite shr_record_of_loc_m. exact H.
Qed.

Lemma round_nearest_even_nonneg m l :
  0 <= m -> 0 <= round_nearest_even m l.
Proof.
  intros H. destruct l as [| []]; simpl; try lia.
  destruct (Z.even m); lia.
Qed.

(** Rounding a non-negative mantissa gives a zero, a finite number or an
    infinity of the requested sign, never NaN. *)
Lemma binary_round_aux_signed sx mx ex lx :
  0 <= mx ->
  F64.signed sx (binary_round_aux F64.prec F64.emax sx mx ex lx).
Proof.
  intros H. unfold binary_round_aux.
  pose proof (shr_fexp_nonneg mx ex lx H) as H1.
  destruct (shr_fexp F64.prec F64.emax mx ex lx) as [mrs' e'].
  simpl in H1.
  pose proof (shr_fexp_nonneg _ e' loc_Exact
                (round_nearest_even_nonneg _ (loc_of_shr_record mrs') H1))
    as H2.
  destruct (shr_fexp F64.prec F64.emax _ e' loc_Exact) as [mrs'' e''].
  simpl in H2.
  destruct (shr_m mrs'') as [| m | m]; simpl; try reflexivity.
  - destruct (_ <=? _); simpl; reflexivity.
  - lia.
Qed.

Lemma SFdiv_core_binary_nonneg mx ex my ey :
  0 <= fst (fst (SFdiv_core_binary F64.prec F64.emax
                   (Zpos mx) ex (Zpos my) ey)).
Proof.
  unfold SFdiv_core_binary.
  set (s := _ - _ - _).
  set (m' := match s with Z0 => _ | Zpos _ => _ | Zneg _ => _ end).
  assert (Hm : 0 <= m').
  { subst m'. destruct s; try lia. apply Z.shiftl_nonneg. lia. }
  pose proof (Z.div_eucl_eq m' (Zpos my) ltac:(lia)) as Heq.
  pose proof (Z.mod_pos_bound m' (Zpos my) ltac:(lia)) as Hb.
  unfold Z.modulo in Hb.
  destruct (Z.div_eucl m' (Z.pos my)) as [q r]. simpl. nia.
Qed.

Lemma div_finite_signed sx mx ex sy my ey :
  F64.signed (xorb sx sy)
    (F64.div (S754_finite sx mx ex) (S754_finite sy my ey)).
Proof.
  unfold F64.div, SFdiv.
  pose proof (SFdiv_core_binary_nonneg mx ex my ey) as H.
  destruct (SFdiv_core_binary F64.prec F64.emax (Zpos mx) ex (Zpos my) ey)
    as [[mz ez] lz].
  simpl in H. apply binary_round_aux_signed, H.
Qed.

Lemma signed_not_nan s x : F64.signed s x -> F64.isnan x = false.
Proof.
  destruct x; simpl; intros H;
    [reflexivity | reflexivity | tauto | reflexivity].
Qed.

Lemma signed_false_nonneg x : F64.signed false x -> F64.nonneg x = true.
Proof.
  destruct x as [s | s | | s m e]; simpl; intros H; subst;
    try reflexivity; tauto.
Qed.

(** [x == 0] holds of the two zeros only. *)
Lemma is_zero_iff x :
  F64.is_zero x = true <-> exists s, x = S754_zero s.
Proof.
  split.
  - destruct x as [s | s | | s m e]; try (destruct s); try discriminate.
    + exists true; reflexivity.
    + exists false; reflexivity.
  - intros [s ->]. reflexivity.
Qed.

(** When a float64 quotient is NaN: an operand is NaN, or the quotient is
    inf/inf or 0/0. *)
Lemma div_isnan x y :
  F64.isnan (F64.div x y)
  = F64.isnan x || F64.isnan y
    || (F64.isinf x && F64.isinf y)
    || (F64.is_zero x && F64.is_zero y).
Proof.
  destruct x as [sx | sx | | sx mx ex], y as [sy | sy | | sy my ey];
    try reflexivity;
    try (destruct sx; reflexivity);
    try (destruct sy; reflexivity);
    try (destruct sx, sy; reflexivity).
  rewrite (signed_not_nan _ _ (div_finite_signed sx mx ex sy my ey)).
  destruct sx, sy; reflexivity.
Qed.

(** A zero dividend and a non-zero divisor give a zero. *)
Lemma div_zero_l s y :
  F64.isnan y = false -> F64.is_zero y = false ->
  F64.is_zero (F64.div (S754_zero s) y) = true.
Proof.
  destruct y as [sy | sy | | sy my ey]; intros Hn Hz;
    try discriminate; reflexivity.
Qed.

(** The quotient of a non-negative float by a positive one is
    non-negative, unless it is NaN (inf/inf). *)
Lemma div_nonneg x y :
  F64.nonneg x = true -> F64.nonneg y = true ->
  F64.is_zero y = false ->
  F64.isnan (F64.div x y) = false ->
  F64.nonneg (F64.div x y) = true.
Proof.
  intros Hx Hy Hz Hn.
  destruct x as [sx | sx | | sx mx ex]; try discriminate Hx;
    destruct y as [sy | sy | | sy my ey]; try discriminate Hy;
    try discriminate Hn;
    destruct sx; try discriminate Hx;
    destruct sy; try discriminate Hy; try discriminate Hz;
    try reflexivity.
  apply signed_false_nonneg.
  exact (div_finite_signed false mx ex false my ey).
Qed.

End F64Facts.

(** ** The cleaning step *)

Section Cleaning.

Variable raw : RawFrame.

Lemma In_clean (r : Row) :
  In r (clean raw) <-> exists r0, In r0 raw /\ r = clean_row r0.
Proof.
  rewrite clean_rowwise, in_map_iff.
  split; intros [r0 [H1 H2]]; exists r0; auto.
Qed.

Lemma nth_error_clean (i : nat) :
  nth_error (clean raw) i = option_map clean_row (nth_error raw i).
Proof. rewrite clean_rowwise. apply nth_error_map. Qed.

Lemma length_clean : List.length (clean raw) = List.length raw.
Proof. rewrite clean_rowwise. apply length_map. Qed.

End Cleaning.

Lemma fillna_float_notnan (value : Z) (f : float64) :
  F64.isnan (fillna_float value f) = false.
Proof.
  unfold fillna_float. destruct (F64.isnan f) eqn:E; [| exact E].
  unfold F64.of_Z, binary_normalize.
  destruct value as [| m | m]; [reflexivity | |];
    unfold binary_round;
    destruct (shl_align _ _ _) as [mz ez];
    eapply F64Facts.signed_not_nan, F64Facts.binary_round_aux_signed; lia.
Qed.

Lemma fillna_float_keeps (value : Z) (f : float64) :
  F64.isnan f = false -> fillna_float value f = f.
Proof. unfold fillna_float. intros ->. reflexivity. Qed.

Lemma fillna_cell_notna (value : Z) (c : cell) :
  isna (fillna_cell value c) = false.
Proof.
  destruct c as [[s | z |] | z | f]; simpl; try reflexivity.
  apply fillna_float_notnan.
Qed.

Lemma fillna_cell_keeps (value : Z) (c : cell) :
  isna c = false -> fillna_cell value c = c.
Proof.
  destruct c as [[s | z |] | z | f]; simpl; intros H;
    try reflexivity; try discriminate.
  now rewrite fillna_float_keeps.
Qed.

Lemma fillna_cell_zero (c : cell) :
  isna c = true -> cell_is_zero (fillna_cell 0 c) = true.
Proof.
  destruct c as [[s | z |] | z | f]; simpl; intros H;
    try reflexivity; try discriminate.
  unfold fillna_float. rewrite H. reflexivity.
Qed.

(** [fillna] acts on a row cell by cell. *)
Lemma obs_cells_fillna_row (value : Z) (r0 : Obs) :
  obs_cells (fillna_row value r0) = map (fillna_cell value) (obs_cells r0).
Proof. unfold obs_cells. rewrite map_app. reflexivity. Qed.

Lemma row_cells_clean_row (r0 : Obs) :
  row_cells (clean_row r0)
  = map (fillna_cell 0) (obs_cells r0)
    ++ [Float64 (gdp_per_capita (clean_row r0))].
Proof.
  unfold row_cells. rewrite <- (obs_cells_fillna_row 0 r0). reflexivity.
Qed.


Lemma clean_row_ratio (r0 : Obs) :
  let r := clean_row r0 in
  (F64.is_zero (population r) = false ->
   gdp_per_capita r = F64.div (gdp r) (population r)) /\
  (F64.is_zero (population r) = true -> gdp_per_capita r = F64.zero).
Proof.
  cbv zeta. unfold clean_row. cbn [gdp_per_capita obs].
  change (F64.eqb (population (fillna_row 0 r0)) (F64.of_Z 0))
    with (F64.is_zero (population (fillna_row 0 r0))).
  split; intros ->; reflexivity.
Qed.

Lemma clean_row_ratio_notnan (r0 : Obs) :
  let r := clean_row r0 in
  F64.isinf (gdp r) && F64.isinf (population r) = false ->
  F64.isnan (gdp_per_capita r) = false.
Proof.
  cbv zeta. unfold clean_row. cbn [gdp_per_capita obs].
  change (F64.eqb (population (fillna_row 0 r0)) (F64.of_Z 0))
    with (F64.is_zero (population (fillna_row 0 r0))).
  intros Hinf.
  destruct (F64.is_zero (population (fillna_row 0 r0))) eqn:Hz; cbn [negb].
  - reflexivity.
  - rewrite F64Facts.div_isnan, Hinf, Hz, andb_false_r.
    cbn [fillna_row gdp population].
    now rewrite !fillna_float_notnan.
Qed.

(** C1 (as stated, refuted).  On a row whose [gdp] and [population] are
    both infinite, the guard [population != 0] lets the quotient through
    and the quotient inf/inf is NaN: the derived cell holds the
    missing-value marker. *)
Lemma gdp_per_capita_missing_at_inf_inf :
  ~ (forall r : Row, In r (clean [obs_inf_inf]) ->
       (F64.is_zero (population r) = false ->
        gdp_per_capita r = F64.div (gdp r) (population r)) /\
       (F64.is_zero (population r) = true -> gdp_per_capita r = F64.zero) /\
       F64.isnan (gdp_per_capita r) = false).
Proof.
  intros H.
  destruct (H (clean_row obs_inf_inf) (or_introl eq_refl)) as [_ [_ Hn]].
  vm_compute in Hn. discriminate Hn.
Qed.

(** C1 (amended).  Cleaning is total and keeps one row per raw row; in
    every cleaned row [gdp_per_capita] is the float64 quotient
    [gdp / population] when [population != 0] and is 0 when
    [population == 0]; it is not NaN unless the row's [gdp] and
    [population] are both infinite. *)
Theorem gdp_per_capita_guarded_ratio (raw : RawFrame) :
  List.length (clean raw) = List.length raw /\
  forall r : Row, In r (clean raw) ->
    (F64.is_zero (population r) = false ->
     gdp_per_capita r = F64.div (gdp r) (population r)) /\
    (F64.is_zero (population r) = true -> gdp_per_capita r = F64.zero) /\
    (F64.isinf (gdp r) && F64.isinf (population r) = false ->
     F64.isnan (gdp_per_capita r) = false).
Proof.
  split; [apply length_clean |].
  intros r Hr. apply In_clean in Hr. destruct Hr as [r0 [_ ->]].
  destruct (clean_row_ratio r0) as [H1 H2].
  repeat split; auto. apply clean_row_ratio_notnan.
Qed.

Lemma gdp_per_capita_guarded_ratio_witness :
  let r := clean_row (sample_obs "Asia" 1850 (F64.of_Z 100) (F64.of_Z 1000)
                        (F64.of_Z 5)) in
  In r (clean sample_raw) /\
  F64.is_zero (population r) = false /\
  F64.isinf (gdp r) && F64.isinf (population r) = false /\
  gdp_per_capita r = F64.of_Z 10 /\
  F64.isnan (gdp_per_capita r) = false.
Proof.
  cbv zeta.
  split; [left; reflexivity |].
  split; [reflexivity |].
  split; [reflexivity |].
  split; [reflexivity |].
  refine (proj2 (proj2 (proj2 (gdp_per_capita_guarded_ratio sample_raw)
                          _ _)) _).
  - left; reflexivity.
  - reflexivity.
Defined.

(** C2 (as stated, refuted).  The cleaned row obtained from [obs_inf_inf]
    has a missing cell: its [gdp_per_capita]. *)
Lemma cleaned_cell_missing_at_inf_inf :
  ~ (forall (r : Row) (c : cell),
       In r (clean [obs_inf_inf]) -> In c (row_cells r) -> isna c = false).
Proof.
  intros H.
  specialize (H (clean_row obs_inf_inf) (Float64 F64.nan)
                (or_introl eq_refl)).
  assert (Hin : In (Float64 F64.nan) (row_cells (clean_row obs_inf_inf))).
  { vm_compute. tauto. }
  specialize (H Hin). discriminate H.
Qed.

(** C2 (amended).  After cleaning, no cell of a column carried over from
    the raw table is missing, and a cell that was missing in the raw table
    holds zero; the appended [gdp_per_capita] cell is not missing either,
    unless the row's [gdp] and [population] are both infinite. *)
Theorem cleaned_cells_not_missing (raw : RawFrame) (i : nat) (r : Row) :
  nth_error (clean raw) i = Some r ->
  (forall c, In c (obs_cells r) -> isna c = false) /\
  (exists r0 : Obs,
     nth_error raw i = Some r0 /\
     forall j c0, nth_error (obs_cells r0) j = Some c0 -> isna c0 = true ->
       exists c, nth_error (row_cells r) j = Some c /\ cell_is_zero c = true) /\
  (F64.isinf (gdp r) && F64.isinf (population r) = false ->
   isna (Float64 (gdp_per_capita r)) = false).
Proof.
  rewrite nth_error_clean.
  destruct (nth_error raw i) as [r0 |] eqn:Hi; [| discriminate].
  intros [= <-].
  split; [| split].
  - intros c Hc. change (obs (clean_row r0)) with (fillna_row 0 r0) in Hc.
    rewrite obs_cells_fillna_row in Hc.
    apply in_map_iff in Hc. destruct Hc as [c0 [<- _]].
    apply fillna_cell_notna.
  - exists r0. split; [reflexivity |].
    intros j c0 Hj Hna. exists (fillna_cell 0 c0). split.
    + rewrite row_cells_clean_row, nth_error_app1.
      * rewrite nth_error_map, Hj. reflexivity.
      * rewrite length_map. apply nth_error_Some. congruence.
    + apply fillna_cell_zero, Hna.
  - apply clean_row_ratio_notnan.
Qed.

Lemma cleaned_cells_not_missing_witness :
  let r := clean_row (sample_obs "World" 1800 F64.nan (F64.of_Z 3)
                        (F64.of_Z 1)) in
  nth_error (clean sample_raw) 2 = Some r /\
  (forall c, In c (obs_cells r) -> isna c = false) /\
  isna (Float64 (gdp_per_capita r)) = false.
Proof.
  cbv zeta.
  split; [reflexivity |].
  destruct (cleaned_cells_not_missing sample_raw 2 _ eq_refl) as [H1 [_ H3]].
  split; [exact H1 | apply H3; reflexivity].
Defined.

(** C6 (as stated, refuted).  [obs_inf_inf] has a non-negative [gdp] and a
    non-negative [population], yet its [gdp_per_capita] is NaN, and
    [0 <= NaN] is false. *)
Lemma gdp_per_capita_not_nonneg_at_inf_inf :
  ~ ((forall r0 : Obs, In r0 [obs_inf_inf] ->
        (F64.isnan (population r0) = false ->
         F64.nonneg (population r0) = true) /\
        (F64.isnan (gdp r0) = false -> F64.nonneg (gdp r0) = true)) ->
     forall r : Row, In r (clean [obs_inf_inf]) ->
       F64.nonneg (population r) = true /\
       F64.nonneg (gdp_per_capita r) = true).
Proof.
  intros H.
  assert (Hpre : forall r0 : Obs, In r0 [obs_inf_inf] ->
            (F64.isnan (population r0) = false ->
             F64.nonneg (population r0) = true) /\
            (F64.isnan (gdp r0) = false -> F64.nonneg (gdp r0) = true)).
  { intros r0 [<- | []]. split; reflexivity. }
  destruct (H Hpre (clean_row obs_inf_inf) (or_introl eq_refl)) as [_ Hn].
  vm_compute in Hn. discriminate Hn.
Qed.

(** C6 (amended).  If every non-missing raw [population] and [gdp] value
    is non-negative and no raw row has [gdp] and [population] both
    infinite, then in every cleaned row [population] and [gdp_per_capita]
    are non-negative. *)
Theorem cleaned_nonneg (raw : RawFrame) :
  (forall r0 : Obs, In r0 raw ->
     (F64.isnan (population r0) = false ->
      F64.nonneg (population r0) = true) /\
     (F64.isnan (gdp r0) = false -> F64.nonneg (gdp r0) = true) /\
     F64.isinf (gdp r0) && F64.isinf (population r0) = false) ->
  forall r : Row, In r (clean raw) ->
    F64.nonneg (population r) = true /\
    F64.nonneg (gdp_per_capita r) = true.
Proof.
  intros Hpre r Hr. apply In_clean in Hr. destruct Hr as [r0 [Hr0 ->]].
  destruct (Hpre r0 Hr0) as [Hp [Hg Hinf]].
  assert (Hp' : F64.nonneg (fillna_float 0 (population r0)) = true).
  { unfold fillna_float.
    destruct (F64.isnan (population r0)); [reflexivity | now apply Hp]. }
  assert (Hg' : F64.nonneg (fillna_float 0 (gdp r0)) = true).
  { unfold fillna_float.
    destruct (F64.isnan (gdp r0)); [reflexivity | now apply Hg]. }
  assert (Hinf' : F64.isinf (fillna_float 0 (gdp r0))
                  && F64.isinf (fillna_float 0 (population r0)) = false).
  { unfold fillna_float.
    destruct (F64.isnan (gdp r0)); [reflexivity |].
    destruct (F64.isnan (population r0)); [apply andb_false_r | exact Hinf]. }
  split; [exact Hp' |].
  pose proof (clean_row_ratio_notnan r0 Hinf') as Hn.
  destruct (clean_row_ratio r0) as [H1 H2].
  destruct (F64.is_zero (population (clean_row r0))) eqn:Hz.
  - rewrite (H2 eq_refl). reflexivity.
  - rewrite (H1 eq_refl) in Hn |- *.
    apply F64Facts.div_nonneg; assumption.
Qed.

Lemma cleaned_nonneg_witness :
  let r := clean_row (sample_obs "Asia" 1850 (F64.of_Z 100) (F64.of_Z 1000)
                        (F64.of_Z 5)) in
  In r (clean sample_raw) /\
  F64.nonneg (population r) = true /\
  F64.nonneg (gdp_per_capita r) = true.
Proof.
  cbv zeta. split; [left; reflexivity |].
  apply (cleaned_nonneg sample_raw); [| left; reflexivity].
  intros r0 Hr0. simpl in Hr0.
  repeat (destruct Hr0 as [<- | Hr0];
          [repeat split; try reflexivity;
           intros H; (reflexivity || discriminate H) |]).
  destruct Hr0.
Defined.

(** C7.  Cleaning keeps the rows and their order; a cleaned row has the
    cells of the raw row followed by exactly one more cell, the derived
    ratio; and every cell of the raw row that was not missing is found
    unchanged at the same place. *)
Theorem clean_frame (raw : RawFrame) (i : nat) (r0 : Obs) :
  nth_error raw i = Some r0 ->
  List.length (clean raw) = List.length raw /\
  exists r : Row,
    nth_error (clean raw) i = Some r /\
    List.length (row_cells r) = S (List.length (obs_cells r0)) /\
    nth_error (row_cells r) (List.length (obs_cells r0))
    = Some (Float64 (gdp_per_capita r)) /\
    forall j c, nth_error (obs_cells r0) j = Some c ->
      isna c = false -> nth_error (row_cells r) j = Some c.
Proof.
  intros Hi. split; [apply length_clean |].
  exists (clean_row r0).
  split; [rewrite nth_error_clean, Hi; reflexivity |].
  rewrite row_cells_clean_row.
  split; [| split].
  - rewrite length_app, length_map. simpl. lia.
  - rewrite nth_error_app2; rewrite length_map; [| lia].
    now rewrite Nat.sub_diag.
  - intros j c Hj Hna.
    rewrite nth_error_app1.
    + rewrite nth_error_map, Hj. simpl. now rewrite fillna_cell_keeps.
    + rewrite length_map. apply nth_error_Some. congruence.
Qed.

Lemma clean_frame_witness :
  exists r : Row,
    nth_error (clean sample_raw) 3 = Some r /\
    List.length (row_cells r) = 13%nat /\
    nth_error (row_cells r) 0 = Some (Obj (PyStr "Chad")) /\
    nth_error (row_cells r) 11 = Some (Obj (PyStr "OWID")).
Proof.
  destruct (clean_frame sample_raw 3 _ eq_refl) as [_ [r [H1 [H2 [_ H4]]]]].
  exists r. split; [exact H1 |]. split; [exact H2 |].
  split; apply H4; reflexivity.
Defined.

(** C10.  A row whose raw [gdp] is missing gets [gdp_per_capita == 0]
    whatever its [population]: the ratio is taken from the filled [gdp],
    which is 0, whereas the quotient of the raw values is NaN. *)
Theorem missing_gdp_gives_zero_ratio (raw : RawFrame) (i : nat) (r0 : Obs) :
  nth_error raw i = Some r0 ->
  F64.isnan (gdp r0) = true ->
  exists r : Row,
    nth_error (clean raw) i = Some r /\
    gdp r = F64.zero /\
    population r = fillna_float 0 (population r0) /\
    F64.is_zero (gdp_per_capita r) = true /\
    F64.isnan (F64.div (gdp r0) (population r0)) = true.
Proof.
  intros Hi Hg. exists (clean_row r0).
  split; [rewrite nth_error_clean, Hi; reflexivity |].
  assert (Hgz : gdp (clean_row r0) = F64.zero).
  { simpl. unfold fillna_float. rewrite Hg. reflexivity. }
  split; [exact Hgz |]. split; [reflexivity |].
  split.
  - destruct (clean_row_ratio r0) as [H1 H2].
    destruct (F64.is_zero (population (clean_row r0))) eqn:Hz.
    + rewrite (H2 eq_refl). reflexivity.
    + rewrite (H1 eq_refl), Hgz.
      apply (F64Facts.div_zero_l false); [| exact Hz].
      apply fillna_float_notnan.
  - rewrite F64Facts.div_isnan, Hg. reflexivity.
Qed.

Lemma missing_gdp_gives_zero_ratio_witness :
  exists r : Row,
    nth_error (clean sample_raw) 3 = Some r /\
    population r = F64.of_Z 3 /\
    F64.is_zero (population r) = false /\
    F64.is_zero (gdp_per_capita r) = true.
Proof.
  destruct (missing_gdp_gives_zero_ratio sample_raw 3 _ eq_refl eq_refl)
    as [r [H1 [_ [H3 [H4 _]]]]].
  exists r. split; [exact H1 |]. split; [exact H3 |].
  split; [rewrite H3; reflexivity | exact H4].
Defined.

(** ** groupby and sorting *)

Section SortingFacts.
Context {A : Type}.
Variable leb : A -> A -> bool.

Lemma insert_perm (x : A) (l : list A) :
  Permutation (insert leb x l) (x :: l).
Proof.
  induction l as [| y l IH]; simpl.
  - apply Permutation_refl.
  - destruct (leb x y).
    + apply Permutation_refl.
    + eapply perm_trans; [apply perm_skip, IH | apply perm_swap].
Qed.

Lemma sort_perm (l : list A) : Permutation (sort leb l) l.
Proof.
  induction l as [| x l IH]; simpl.
  - apply perm_nil.
  - eapply perm_trans; [apply insert_perm | apply perm_skip, IH].
Qed.

Lemma In_sort (x : A) (l : list A) : In x (sort leb l) <-> In x l.
Proof.
  split; apply Permutation_in;
    [apply sort_perm | apply Permutation_sym, sort_perm].
Qed.

Lemma NoDup_sort (l : list A) : NoDup l -> NoDup (sort leb l).
Proof.
  apply Permutation_NoDup, Permutation_sym, sort_perm.
Qed.
End SortingFacts.

Lemma In_sort_values {A : Type} (by_year : A -> Z) (x : A) (frame : list A) :
  In x (sort_values by_year frame) <-> In x frame.
Proof. apply In_sort. Qed.

Section GroupByFacts.
Context {R K : Type}.
Variable key : R -> K.
Variable key_notna : K -> bool.
Variable key_eqb : K -> K -> bool.
Variable key_leb : K -> K -> bool.

Lemma In_unique (k : K) (ks : list K) :
  In k (unique key_eqb ks) -> In k ks.
Proof.
  induction ks as [| k0 ks IH]; simpl; [tauto |].
  intros [-> | H]; [now left |].
  apply filter_In in H. right. apply IH, H.
Qed.

(** A group of the result: its key is the key of a selected row that is
    not missing, and its rows are those rows with an equal key. *)
Lemma In_groupby (k : K) (g : list R) (rows : list R) :
  In (k, g) (groupby key key_notna key_eqb key_leb rows) ->
  (exists r, In r rows /\ key_notna (key r) = true /\ key r = k) /\
  g = filter (fun r => key_eqb (key r) k)
             (filter (fun r => key_notna (key r)) rows).
Proof.
  unfold groupby. intros H.
  apply in_map_iff in H. destruct H as [k' [[= -> <-] Hk]].
  split; [| reflexivity].
  apply In_sort, In_unique, in_map_iff in Hk.
  destruct Hk as [r [Hkey Hr]]. apply filter_In in Hr.
  exists r. tauto.
Qed.

Lemma groupby_keys (rows : list R) :
  map fst (groupby key key_notna key_eqb key_leb rows)
  = sort key_leb
      (unique key_eqb
         (map key (filter (fun r => key_notna (key r)) rows))).
Proof.
  unfold groupby. rewrite map_map. simpl. apply map_id.
Qed.

(** When [key_eqb] decides equality of the keys that are not missing:
    one group per key, and a group for every key that occurs. *)
Hypothesis key_eqb_eq : forall a b, key_eqb a b = true -> a = b.
Hypothesis key_eqb_refl :
  forall a, key_notna a = true -> key_eqb a a = true.

Lemma NoDup_unique (ks : list K) :
  (forall k, In k ks -> key_notna k = true) ->
  NoDup (unique key_eqb ks).
Proof.
  induction ks as [| k ks IH]; simpl; intros Hna; constructor.
  - intros H. apply filter_In in H. destruct H as [_ H].
    rewrite key_eqb_refl in H by (apply Hna; now left).
    discriminate H.
  - apply NoDup_filter, IH. intros k' Hk'. apply Hna. now right.
Qed.

Lemma unique_complete (k : K) (ks : list K) :
  In k ks -> In k (unique key_eqb ks).
Proof.
  induction ks as [| k0 ks IH]; simpl; [tauto |].
  intros [-> | H]; [now left |].
  destruct (key_eqb k k0) eqn:E.
  - left. symmetry. now apply key_eqb_eq.
  - right. apply filter_In. split; [apply IH, H | now rewrite E].
Qed.

Lemma NoDup_groupby_keys (rows : list R) :
  NoDup (map fst (groupby key key_notna key_eqb key_leb rows)).
Proof.
  rewrite groupby_keys. apply NoDup_sort, NoDup_unique.
  intros k Hk. apply in_map_iff in Hk. destruct Hk as [r [<- Hr]].
  apply filter_In in Hr. tauto.
Qed.

Lemma groupby_complete (r : R) (rows : list R) :
  In r rows -> key_notna (key r) = true ->
  In (key r) (map fst (groupby key key_notna key_eqb key_leb rows)).
Proof.
  intros Hr Hn. rewrite groupby_keys.
  apply In_sort, unique_complete, in_map, filter_In. tauto.
Qed.
End GroupByFacts.

(** Key equality on object columns. *)
Lemma object_eqb_eq (a b : object) : object_eqb a b = true -> a = b.
Proof.
  destruct a, b; simpl; try discriminate.
  - intros H. apply String.eqb_eq in H. now subst.
  - intros H. apply Z.eqb_eq in H. now subst.
Qed.

Lemma object_eqb_refl (a : object) :
  object_notna a = true -> object_eqb a a = true.
Proof.
  destruct a; simpl; intros H;
    [apply String.eqb_refl | apply Z.eqb_refl | discriminate].
Qed.

Lemma isin_PyStr (values : list string) (o : object) :
  isin values o = true <-> exists s, o = PyStr s /\ In s values.
Proof.
  split.
  - destruct o as [s | z |]; simpl; try discriminate.
    intros H. apply existsb_exists in H. destruct H as [s' [Hin Heq]].
    apply String.eqb_eq in Heq. subst s'. now exists s.
  - intros [s [-> Hin]]. simpl. apply existsb_exists.
    exists s. split; [exact Hin | apply String.eqb_refl].
Qed.

Lemma isin_notna (values : list string) (o : object) :
  isin values o = true -> object_notna o = true.
Proof.
  destruct o; simpl; intros H;
    [reflexivity | reflexivity | discriminate].
Qed.

(** ** The time-series and cross-section views *)

(** C3.  Whatever the value of the year slider, every row of the
    time-series view has a year at most that value and a country that is
    one of the names in [continents]. *)
Theorem co2_pipeline_rows
    (idf : DataFrame) (w : Widgets) (v : TimeSeriesRow) :
  In v (co2_pipeline idf w) ->
  ts_year v <= year_slider w /\
  exists s : string,
    ts_country v = PyStr s /\
    In s ["World"; "Asia"; "Oceania"; "Europe"; "Africa"; "North America";
          "South America"; "Antarctica"]%string.
Proof.
  unfold co2_pipeline. intros Hv.
  apply In_sort_values, in_map_iff in Hv.
  destruct Hv as [[[c y] g] [<- Hkg]]. cbn [ts_country ts_year fst snd].
  apply In_groupby in Hkg. destruct Hkg as [[r [Hr [_ Hkey]]] _].
  injection Hkey as <- <-.
  apply filter_In in Hr. destruct Hr as [_ Hsel].
  apply andb_true_iff in Hsel. destruct Hsel as [Hy Hc].
  split; [now apply Z.leb_le |].
  exact (proj1 (isin_PyStr continents (country r)) Hc).
Qed.

Lemma co2_pipeline_rows_witness :
  let v := {| ts_country := PyStr "Asia"; ts_year := 1850;
              ts_value := F64.of_Z 6 |} in
  In v (co2_pipeline (clean sample_raw) initial_widgets) /\
  ts_year v <= 1850 /\
  exists s : string,
    ts_country v = PyStr s /\
    In s ["World"; "Asia"; "Oceania"; "Europe"; "Africa"; "North America";
          "South America"; "Antarctica"]%string.
Proof.
  cbv zeta.
  assert (H : In {| ts_country := PyStr "Asia"; ts_year := 1850;
                    ts_value := F64.of_Z 6 |}
                 (co2_pipeline (clean sample_raw) initial_widgets)).
  { vm_compute. tauto. }
  split; [exact H |].
  exact (co2_pipeline_rows (clean sample_raw) initial_widgets _ H).
Defined.

(** C4.  Whatever the value of the year slider, every row of the
    cross-section view has exactly that year and a country that is not
    one of the names in [continents]. *)
Theorem co2_vs_gdp_scatterplot_pipeline_rows
    (idf : DataFrame) (w : Widgets) (v : ScatterRow) :
  In v (co2_vs_gdp_scatterplot_pipeline idf w) ->
  sc_year v = year_slider w /\
  isin continents (sc_country v) = false /\
  forall s : string,
    sc_country v = PyStr s ->
    ~ In s ["World"; "Asia"; "Oceania"; "Europe"; "Africa"; "North America";
            "South America"; "Antarctica"]%string.
Proof.
  unfold co2_vs_gdp_scatterplot_pipeline. intros Hv.
  apply In_sort_values, in_map_iff in Hv.
  destruct Hv as [[[[c y] x] g] [<- Hkg]].
  cbn [sc_country sc_year fst snd].
  apply In_groupby in Hkg. destruct Hkg as [[r [Hr [_ Hkey]]] _].
  injection Hkey as <- <- <-.
  apply filter_In in Hr. destruct Hr as [_ Hsel].
  apply andb_true_iff in Hsel. destruct Hsel as [Hy Hc].
  apply negb_true_iff in Hc.
  split; [now apply Z.eqb_eq |].
  split; [exact Hc |].
  intros s Hs Hin.
  assert (Hisin : isin continents (country r) = true).
  { apply (proj2 (isin_PyStr continents (country r))). now exists s. }
  congruence.
Qed.

Lemma co2_vs_gdp_scatterplot_pipeline_rows_witness :
  let v := {| sc_country := PyStr "Chad"; sc_year := 1850;
              sc_gdp_per_capita := F64.zero; sc_co2 := F64.of_Z 9 |} in
  In v (co2_vs_gdp_scatterplot_pipeline (clean sample_raw) initial_widgets) /\
  sc_year v = 1850 /\
  isin continents (sc_country v) = false.
Proof.
  cbv zeta.
  assert (H : In {| sc_country := PyStr "Chad"; sc_year := 1850;
                    sc_gdp_per_capita := F64.zero; sc_co2 := F64.of_Z 9 |}
                 (co2_vs_gdp_scatterplot_pipeline (clean sample_raw)
                    initial_widgets)).
  { vm_compute. tauto. }
  split; [exact H |].
  destruct (co2_vs_gdp_scatterplot_pipeline_rows _ _ _ H) as [H1 [H2 _]].
  split; [exact H1 | exact H2].
Defined.

(** ** The bar-chart view *)

Lemma filter_filter {A : Type} (f g : A -> bool) (l : list A) :
  filter f (filter g l) = filter (fun x => g x && f x) l.
Proof.
  induction l as [| x l IH]; simpl; [reflexivity |].
  destruct (g x); simpl; [destruct (f x) |]; now rewrite IH.
Qed.

Lemma NoDup_map_inj_in {A B : Type} (f : A -> B) (l : list A) :
  (forall x y, In x l -> In y l -> f x = f y -> x = y) ->
  NoDup l -> NoDup (map f l).
Proof.
  induction l as [| a l IH]; simpl; intros Hinj Hnd; [constructor |].
  inversion Hnd as [| a' l' Ha Hl]; subst.
  constructor.
  - intros Hin. apply in_map_iff in Hin. destruct Hin as [b [Hfb Hb]].
    assert (b = a) by (apply Hinj; auto). now subst.
  - apply IH; auto.
Qed.

Lemma In_groupby_keys {R K : Type} (key : R -> K) (key_notna : K -> bool)
    (key_eqb key_leb : K -> K -> bool) (k : K) (rows : list R) :
  In k (map fst (groupby key key_notna key_eqb key_leb rows)) ->
  exists r, In r rows /\ key_notna (key r) = true /\ key r = k.
Proof.
  intros H. apply in_map_iff in H. destruct H as [[k' g] [Hk Hkg]].
  simpl in Hk. subst k'. now apply In_groupby in Hkg.
Qed.

Lemma year_country_eqb_eq (a b : Z * object) :
  year_country_eqb a b = true -> a = b.
Proof.
  destruct a as [y c], b as [y' c']. unfold year_country_eqb. simpl.
  intros H. apply andb_true_iff in H. destruct H as [Hy Hc].
  apply Z.eqb_eq in Hy. apply object_eqb_eq in Hc. now subst.
Qed.

Lemma year_country_eqb_refl (a : Z * object) :
  year_country_notna a = true -> year_country_eqb a a = true.
Proof.
  destruct a as [y c]. unfold year_country_notna, year_country_eqb. simpl.
  intros H. now rewrite Z.eqb_refl, object_eqb_refl.
Qed.

(** A row of the bar view: the selected year, a country of
    [continents_excl_world], and the sum of the selected column over the
    rows of that year and country. *)
Lemma bar_row_spec (idf : DataFrame) (w : Widgets) (v : BarRow) :
  In v (co2_source_bar_pipeline idf w) ->
  bar_year v = year_slider w /\
  isin continents_excl_world (bar_country v) = true /\
  bar_value v
  = series_sum (map (source_column (yaxis_co2_source w))
                    (bar_rows idf w (bar_country v))).
Proof.
  unfold co2_source_bar_pipeline. intros Hv.
  apply In_sort_values, in_map_iff in Hv.
  destruct Hv as [[[y c] g] [<- Hkg]].
  cbn [bar_year bar_country bar_value fst snd].
  apply In_groupby in Hkg. destruct Hkg as [[r [Hr [_ Hkey]]] ->].
  injection Hkey as <- <-.
  apply filter_In in Hr. destruct Hr as [_ Hsel].
  apply andb_true_iff in Hsel. destruct Hsel as [Hy Hc].
  apply Z.eqb_eq in Hy.
  split; [exact Hy |]. split; [exact Hc |].
  do 2 f_equal. unfold bar_rows. rewrite !filter_filter.
  apply filter_ext_in. intros r' _.
  unfold key_year_country, year_country_notna, year_country_eqb.
  cbn [fst snd]. rewrite Hy.
  destruct (object_eqb (country r') (country r)) eqn:E.
  - apply object_eqb_eq in E. rewrite E, Hc, (isin_notna _ _ Hc).
    now destruct (year r' =? year_slider w).
  - now rewrite !andb_false_r.
Qed.

(** The library's loop and the reference recursion compute the same
    sum. *)
Lemma fold_kahan_step (values : list float64) :
  forall sumx compensation : float64,
    fst (fold_left kahan_step values (sumx, compensation))
    = compensated_sum_from sumx compensation values.
Proof.
  induction values as [| val values IH]; intros sumx compensation;
    [reflexivity |].
  simpl. unfold kahan_step at 2. cbn [fst snd]. apply IH.
Qed.

Lemma series_sum_compensated (s : list float64) :
  series_sum s = compensated_sum (skipna s).
Proof. apply fold_kahan_step. Qed.

(** The sum and the mean of 0.1, 0.2, 0.3: the compensated sum is 0.6 and
    the mean 0.19999999999999998, where adding from left to right would
    give 0.6000000000000001. *)
Example series_sum_tenths :
  let x1 := S754_finite false 7205759403792794 (-56) in
  let x2 := S754_finite false 7205759403792794 (-55) in
  let x3 := S754_finite false 5404319552844595 (-54) in
  series_sum [x1; x2; x3] = S754_finite false 5404319552844595 (-53) /\
  series_mean [x1; x2; x3] = S754_finite false 7205759403792793 (-55) /\
  F64.add (F64.add x1 x2) x3 = S754_finite false 5404319552844596 (-53).
Proof. repeat split. Qed.


(** The selected sub-source column holds no missing value in the cleaned
    table, so the group sum skips nothing. *)
Lemma source_column_clean_notnan (c : Source) (raw : RawFrame) (r : Row) :
  In r (clean raw) -> F64.isnan (source_column c r) = false.
Proof.
  intros Hr. apply In_clean in Hr. destruct Hr as [r0 [_ ->]].
  destruct c; apply fillna_float_notnan.
Qed.

Lemma skipna_id (s : list float64) :
  (forall x, In x s -> F64.isnan x = false) -> skipna s = s.
Proof.
  induction s as [| x s IH]; simpl; intros H; [reflexivity |].
  rewrite (H x (or_introl eq_refl)). simpl. f_equal.
  apply IH. intros y Hy. apply H. now right.
Qed.

(** The value of a bar of the cleaned table: the compensated sum of the
    selected column over the rows of the selected year and of the bar's
    country. *)
Lemma bar_value_clean (raw : RawFrame) (w : Widgets) (v : BarRow) :
  In v (co2_source_bar_pipeline (clean raw) w) ->
  bar_value v
  = compensated_sum
      (map (source_column (yaxis_co2_source w))
           (bar_rows (clean raw) w (bar_country v))).
Proof.
  intros Hv. destruct (bar_row_spec (clean raw) w v Hv) as [_ [_ ->]].
  rewrite series_sum_compensated, skipna_id; [reflexivity |].
  intros x Hx. apply in_map_iff in Hx. destruct Hx as [r [<- Hr]].
  apply filter_In in Hr. apply (source_column_clean_notnan _ raw). tauto.
Qed.

(** One bar per country, and a bar for every listed country that has a
    row of the selected year. *)
Lemma bar_view_regions (idf : DataFrame) (w : Widgets) :
  NoDup (map bar_country (co2_source_bar_pipeline idf w)) /\
  forall r : Row,
    In r idf -> year r = year_slider w ->
    isin continents_excl_world (country r) = true ->
    exists v : BarRow,
      In v (co2_source_bar_pipeline idf w) /\ bar_country v = country r.
Proof.
  split.
  - unfold co2_source_bar_pipeline, sort_values.
    eapply Permutation_NoDup.
    { apply Permutation_map, Permutation_sym, sort_perm. }
    rewrite map_map. cbn [bar_country].
    rewrite <- (map_map fst snd).
    apply NoDup_map_inj_in.
    + intros [y c] [y' c'] Hk Hk' Heq. simpl in Heq. subst c'.
      apply In_groupby_keys in Hk. destruct Hk as [r [Hr [_ Hkey]]].
      apply In_groupby_keys in Hk'. destruct Hk' as [r' [Hr' [_ Hkey']]].
      apply filter_In in Hr. destruct Hr as [_ Hr].
      apply filter_In in Hr'. destruct Hr' as [_ Hr'].
      apply andb_true_iff in Hr. destruct Hr as [Hr _].
      apply andb_true_iff in Hr'. destruct Hr' as [Hr' _].
      apply Z.eqb_eq in Hr. apply Z.eqb_eq in Hr'.
      injection Hkey as <- _. injection Hkey' as <- _. congruence.
    + apply NoDup_groupby_keys, year_country_eqb_refl.
  - intros r Hr Hy Hc.
    assert (Hsel : In r (filter (fun r : Row =>
                            (year r =? year_slider w)
                            && isin continents_excl_world (country r)) idf)).
    { apply filter_In. split; [exact Hr |].
      rewrite Hc, andb_true_r. now apply Z.eqb_eq. }
    pose proof (groupby_complete key_year_country year_country_notna
                  year_country_eqb year_country_leb
                  year_country_eqb_eq r _ Hsel
                  (isin_notna _ _ Hc)) as Hk.
    apply in_map_iff in Hk. destruct Hk as [[k g] [Hfst Hkg]].
    simpl in Hfst. subst k.
    exists {| bar_year := year r; bar_country := country r;
              bar_value :=
                series_sum (map (source_column (yaxis_co2_source w)) g) |}.
    split; [| reflexivity].
    unfold co2_source_bar_pipeline. apply In_sort_values, in_map_iff.
    exists (key_year_country r, g). split; [reflexivity | exact Hkg].
Qed.

(** C5.  The bar view is a per-region aggregate of the three sub-source
    columns for the single selected year.  The radio buttons offer
    [coal_co2], [oil_co2] and [gas_co2]; whichever is selected, every row
    of the view carries the selected year and there is exactly one row
    per country, for each country of [continents_excl_world] that has a
    row of that year; and the value of a row is the sum, as the library
    computes it, of the selected column, coal, oil or gas, over the rows
    of the cleaned table of that country and year. *)
Theorem co2_source_bar_pipeline_per_region
    (raw : RawFrame) (Y : Z) (y : Yaxis) :
  let view (c : Source) :=
    co2_source_bar_pipeline (clean raw)
      {| year_slider := Y; yaxis_co2 := y; yaxis_co2_source := c |} in
  let region_rows (region : object) :=
    filter (fun r : Row => (year r =? Y) && object_eqb (country r) region)
           (clean raw) in
  yaxis_co2_source_options = [opt_coal_co2; opt_oil_co2; opt_gas_co2] /\
  (forall c : Source,
     NoDup (map bar_country (view c)) /\
     (forall v : BarRow, In v (view c) -> bar_year v = Y) /\
     (forall r : Row,
        In r (clean raw) -> year r = Y ->
        isin continents_excl_world (country r) = true ->
        exists v : BarRow, In v (view c) /\ bar_country v = country r)) /\
  (forall v : BarRow,
     In v (view opt_coal_co2) ->
     bar_value v
     = compensated_sum
         (map (fun r : Row => coal_co2 r) (region_rows (bar_country v)))) /\
  (forall v : BarRow,
     In v (view opt_oil_co2) ->
     bar_value v
     = compensated_sum
         (map (fun r : Row => oil_co2 r) (region_rows (bar_country v)))) /\
  (forall v : BarRow,
     In v (view opt_gas_co2) ->
     bar_value v
     = compensated_sum
         (map (fun r : Row => gas_co2 r) (region_rows (bar_country v)))).
Proof.
  cbv zeta. split; [reflexivity |]. split.
  - intros c.
    destruct (bar_view_regions (clean raw)
                {| year_slider := Y; yaxis_co2 := y;
                   yaxis_co2_source := c |}) as [Hnd Hall].
    split; [exact Hnd |]. split; [| exact Hall].
    intros v Hv. now apply bar_row_spec in Hv.
  - repeat split; intros v Hv; apply (bar_value_clean raw _ v Hv).
Qed.

Lemma co2_source_bar_pipeline_per_region_witness :
  let w (c : Source) :=
    {| year_slider := 1850; yaxis_co2 := opt_co2; yaxis_co2_source := c |} in
  let asia (x : Z) :=
    {| bar_year := 1850; bar_country := PyStr "Asia";
       bar_value := F64.of_Z x |} in
  (In (asia 12) (co2_source_bar_pipeline (clean sample_raw) (w opt_coal_co2))
   /\ In (asia 4) (co2_source_bar_pipeline (clean sample_raw) (w opt_oil_co2))
   /\ In (asia 6) (co2_source_bar_pipeline (clean sample_raw) (w opt_gas_co2)))
  /\
  F64.of_Z 4
  = compensated_sum
      (map (fun r : Row => oil_co2 r)
           (filter (fun r : Row =>
                      (year r =? 1850)
                      && object_eqb (country r) (PyStr "Asia"))
                   (clean sample_raw))).
Proof.
  cbv zeta.
  assert (H : In {| bar_year := 1850; bar_country := PyStr "Asia";
                    bar_value := F64.of_Z 4 |}
                 (co2_source_bar_pipeline (clean sample_raw)
                    {| year_slider := 1850; yaxis_co2 := opt_co2;
                       yaxis_co2_source := opt_oil_co2 |})).
  { vm_compute. tauto. }
  split.
  - split; [vm_compute; tauto |]. split; [exact H | vm_compute; tauto].
  - exact (proj1 (proj2 (proj2 (proj2
             (co2_source_bar_pipeline_per_region sample_raw 1850 opt_co2))))
             _ H).
Defined.

(** C9.  The bar view draws its countries from the seven names of
    [continents_excl_world], which leaves out "World" (a name of
    [continents]); the value of a row is the sum, not the mean, of the
    selected sub-source column over the rows of the cleaned table with the
    selected year and that country: the float64 sum as the library
    computes it, a compensated sum in table order. *)
Theorem co2_source_bar_pipeline_sums
    (raw : RawFrame) (w : Widgets) (v : BarRow) :
  In v (co2_source_bar_pipeline (clean raw) w) ->
  (exists s : string,
     bar_country v = PyStr s /\
     In s ["Asia"; "Oceania"; "Europe"; "Africa"; "North America";
           "South America"; "Antarctica"]%string /\
     s <> "World"%string) /\
  In "World"%string continents /\
  List.length continents_excl_world = 7%nat /\
  bar_year v = year_slider w /\
  bar_value v
  = compensated_sum
      (map (fun r : Row =>
              match yaxis_co2_source w with
              | opt_coal_co2 => coal_co2 r
              | opt_oil_co2 => oil_co2 r
              | opt_gas_co2 => gas_co2 r
              end)
           (filter (fun r : Row => (year r =? year_slider w)
                                   && object_eqb (country r) (bar_country v))
                   (clean raw))).
Proof.
  intros Hv. destruct (bar_row_spec (clean raw) w v Hv) as [Hy [Hc _]].
  split; [| split; [| split; [| split]]].
  - destruct (proj1 (isin_PyStr _ _) Hc) as [s [Hs Hin]].
    exists s. split; [exact Hs |]. split; [exact Hin |].
    intros ->. simpl in Hin.
    repeat (destruct Hin as [Hin | Hin]; [discriminate Hin |]).
    exact Hin.
  - simpl. tauto.
  - reflexivity.
  - exact Hy.
  - rewrite (bar_value_clean raw w v Hv). unfold bar_rows.
    erewrite map_ext; [reflexivity |]. intros r.
    now destruct (yaxis_co2_source w).
Qed.

Lemma co2_source_bar_pipeline_sums_witness :
  let v := {| bar_year := 1850; bar_country := PyStr "Asia";
              bar_value := F64.of_Z 12 |} in
  let values :=
    map (fun r : Row => coal_co2 r)
        (filter (fun r : Row => (year r =? 1850)
                                && object_eqb (country r) (PyStr "Asia"))
                (clean sample_raw)) in
  In v (co2_source_bar_pipeline (clean sample_raw) initial_widgets) /\
  values = [F64.of_Z 5; F64.of_Z 7] /\
  bar_value v = compensated_sum values /\
  F64.div (compensated_sum values) (F64.of_Z 2) = F64.of_Z 6.
Proof.
  cbv zeta.
  assert (H : In {| bar_year := 1850; bar_country := PyStr "Asia";
                    bar_value := F64.of_Z 12 |}
                 (co2_source_bar_pipeline (clean sample_raw) initial_widgets)).
  { vm_compute. tauto. }
  split; [exact H |].
  split; [reflexivity |].
  split; [| reflexivity].
  exact (proj2 (proj2 (proj2 (proj2
           (co2_source_bar_pipeline_sums sample_raw initial_widgets _ H))))).
Defined.

(** ** The cleaned table under widget events *)

Lemma extends_refl (h : Heap) : extends h h.
Proof. intros a o H. exact H. Qed.

Lemma extends_trans (h1 h2 h3 : Heap) :
  extends h1 h2 -> extends h2 h3 -> extends h1 h3.
Proof. intros H12 H23 a o H. apply H23, H12, H. Qed.

Lemma alloc_extends (h : Heap) (o : pyobj) : extends h (fst (alloc h o)).
Proof.
  intros a x H. simpl. rewrite nth_error_app1; [exact H |].
  apply nth_error_Some. congruence.
Qed.

Lemma alloc_lookup (h : Heap) (o : pyobj) :
  nth_error (fst (alloc h o)) (snd (alloc h o)) = Some o.
Proof.
  simpl. rewrite nth_error_app2 by lia. now rewrite Nat.sub_diag.
Qed.

(** The cleaning cells leave the cleaned table at the address of [df]. *)
Lemma load_and_clean_ok (raw : RawFrame) :
  exists h a,
    load_and_clean raw = Some (h, a) /\
    nth_error h a = Some (Table (clean raw)).
Proof.
  exists [RawTable raw; Table (clean raw)], 1%nat.
  split; reflexivity.
Qed.

(** Objects already on the heap are found again after an allocation, and
    the new object is at the address returned. *)
Lemma lookup_alloc_old (h : Heap) (o x : pyobj) (a : nat) :
  nth_error h a = Some x -> nth_error (h ++ [o]) a = Some x.
Proof. apply (alloc_extends h o). Qed.

Lemma lookup_alloc_new (h : Heap) (o : pyobj) :
  nth_error (h ++ [o]) (List.length h) = Some o.
Proof. apply (alloc_lookup h o). Qed.

Create HintDb heap.
#[local] Hint Resolve lookup_alloc_old lookup_alloc_new : heap.

Lemma extends_alloc (h h' : Heap) (o : pyobj) :
  extends h h' -> extends h (h' ++ [o]).
Proof. intros H a x Ha. apply lookup_alloc_old, H, Ha. Qed.

#[local] Hint Resolve extends_alloc extends_refl : heap.

(** What each call returns. *)
Lemma getattr_year_ok (h : Heap) (a : nat) (t : DataFrame) :
  nth_error h a = Some (Table t) ->
  getattr_year h a
  = Some (h ++ [IntSeries (map (fun r : Row => year r) t)], List.length h).
Proof. intros H. unfold getattr_year. now rewrite H. Qed.

Lemma getattr_country_ok (h : Heap) (a : nat) (t : DataFrame) :
  nth_error h a = Some (Table t) ->
  getattr_country h a
  = Some (h ++ [ObjectSeries (map (fun r : Row => country r) t)],
          List.length h).
Proof. intros H. unfold getattr_country. now rewrite H. Qed.

Lemma series_le_ok (h : Heap) (s : nat) (ys : list Z) (value : Z) :
  nth_error h s = Some (IntSeries ys) ->
  series_le h s value
  = Some (h ++ [BoolSeries (map (fun y => y <=? value) ys)], List.length h).
Proof. intros H. unfold series_le. now rewrite H. Qed.

Lemma series_eq_ok (h : Heap) (s : nat) (ys : list Z) (value : Z) :
  nth_error h s = Some (IntSeries ys) ->
  series_eq h s value
  = Some (h ++ [BoolSeries (map (fun y => y =? value) ys)], List.length h).
Proof. intros H. unfold series_eq. now rewrite H. Qed.

Lemma series_isin_ok (h : Heap) (s : nat) (os : list object)
    (values : list string) :
  nth_error h s = Some (ObjectSeries os) ->
  series_isin h s values
  = Some (h ++ [BoolSeries (map (isin values) os)], List.length h).
Proof. intros H. unfold series_isin. now rewrite H. Qed.

Lemma series_invert_ok (h : Heap) (m : nat) (bs : list bool) :
  nth_error h m = Some (BoolSeries bs) ->
  series_invert h m = Some (h ++ [BoolSeries (map negb bs)], List.length h).
Proof. intros H. unfold series_invert. now rewrite H. Qed.

Lemma series_and_ok (h : Heap) (m1 m2 : nat) (b1 b2 : list bool) :
  nth_error h m1 = Some (BoolSeries b1) ->
  nth_error h m2 = Some (BoolSeries b2) ->
  series_and h m1 m2
  = Some (h ++ [BoolSeries (mask_and b1 b2)], List.length h).
Proof. intros H1 H2. unfold series_and. now rewrite H1, H2. Qed.

Lemma getitem_ok (h : Heap) (a m : nat) (t : DataFrame) (bs : list bool) :
  nth_error h a = Some (Table t) ->
  nth_error h m = Some (BoolSeries bs) ->
  getitem h a m = Some (h ++ [Table (select t bs)], List.length h).
Proof. intros H1 H2. unfold getitem. now rewrite H1, H2. Qed.

Lemma groupby_country_year_mean_ok (h : Heap) (a : nat) (t : DataFrame)
    (y : Yaxis) :
  nth_error h a = Some (Table t) ->
  groupby_country_year_mean h a y
  = Some (h ++ [TimeSeriesFrame
          (map (fun kg =>
                  {| ts_country := fst (fst kg);
                     ts_year := snd (fst kg);
                     ts_value :=
                       series_mean (map (yaxis_column y) (snd kg)) |})
               (groupby key_country_year country_year_notna
                        country_year_eqb country_year_leb t))],
          List.length h).
Proof. intros H. unfold groupby_country_year_mean. now rewrite H. Qed.

Lemma groupby_country_year_gdp_mean_ok (h : Heap) (a : nat) (t : DataFrame) :
  nth_error h a = Some (Table t) ->
  groupby_country_year_gdp_mean h a
  = Some (h ++ [ScatterFrame
          (map (fun kg =>
                  {| sc_country := fst (fst (fst kg));
                     sc_year := snd (fst (fst kg));
                     sc_gdp_per_capita := snd (fst kg);
                     sc_co2 :=
                       series_mean (map (fun r : Row => co2 r) (snd kg)) |})
               (groupby key_country_year_gdp country_year_gdp_notna
                        country_year_gdp_eqb country_year_gdp_leb t))],
          List.length h).
Proof. intros H. unfold groupby_country_year_gdp_mean. now rewrite H. Qed.

Lemma groupby_year_country_sum_ok (h : Heap) (a : nat) (t : DataFrame)
    (c : Source) :
  nth_error h a = Some (Table t) ->
  groupby_year_country_sum h a c
  = Some (h ++ [BarFrame
          (map (fun kg =>
                  {| bar_year := fst (fst kg);
                     bar_country := snd (fst kg);
                     bar_value :=
                       series_sum (map (source_column c) (snd kg)) |})
               (groupby key_year_country year_country_notna
                        year_country_eqb year_country_leb t))],
          List.length h).
Proof. intros H. unfold groupby_year_country_sum. now rewrite H. Qed.

Lemma frame_method_ts f_ts f_sc f_bar (h : Heap) (a : nat)
    (t : list TimeSeriesRow) :
  nth_error h a = Some (TimeSeriesFrame t) ->
  frame_method f_ts f_sc f_bar h a
  = Some (h ++ [TimeSeriesFrame (f_ts t)], List.length h).
Proof. intros H. unfold frame_method. now rewrite H. Qed.

Lemma frame_method_sc f_ts f_sc f_bar (h : Heap) (a : nat)
    (t : list ScatterRow) :
  nth_error h a = Some (ScatterFrame t) ->
  frame_method f_ts f_sc f_bar h a
  = Some (h ++ [ScatterFrame (f_sc t)], List.length h).
Proof. intros H. unfold frame_method. now rewrite H. Qed.

Lemma frame_method_bar f_ts f_sc f_bar (h : Heap) (a : nat)
    (t : list BarRow) :
  nth_error h a = Some (BarFrame t) ->
  frame_method f_ts f_sc f_bar h a
  = Some (h ++ [BarFrame (f_bar t)], List.length h).
Proof. intros H. unfold frame_method. now rewrite H. Qed.

(** Boolean indexing with the mask computed from the frame itself is the
    filter of the frame. *)
Lemma select_map {A : Type} (p : A -> bool) (rows : list A) :
  select rows (map p rows) = filter p rows.
Proof.
  induction rows as [| r rows IH]; simpl; [reflexivity |].
  rewrite IH. reflexivity.
Qed.

Lemma mask_and_map {A : Type} (p q : A -> bool) (rows : list A) :
  mask_and (map p rows) (map q rows) = map (fun r => p r && q r) rows.
Proof.
  induction rows as [| r rows IH]; simpl; [reflexivity |].
  now rewrite IH.
Qed.

Ltac call lemma :=
  erewrite lemma by eauto 40 with heap; cbn [and_then].

Ltac finish_pipeline :=
  do 2 eexists; split; [reflexivity |];
  split; [eauto 40 with heap |];
  rewrite lookup_alloc_new; do 2 f_equal;
  rewrite !map_map, mask_and_map, select_map.

(** Each pipeline runs to its end, leaves every object that was on the
    heap as it was, and returns a new frame holding the view. *)
Lemma eval_co2_pipeline_ok (h : Heap) (a : nat) (t : DataFrame)
    (w : Widgets) :
  nth_error h a = Some (Table t) ->
  exists h' v,
    eval_co2_pipeline h a w = Some (h', v) /\
    extends h h' /\
    nth_error h' v = Some (TimeSeriesFrame (co2_pipeline t w)).
Proof.
  intros Ha. unfold eval_co2_pipeline, to_frame, reset_index,
    sort_values_by_year.
  call getattr_year_ok. call series_le_ok. call getattr_country_ok.
  call series_isin_ok. call series_and_ok. call getitem_ok.
  call groupby_country_year_mean_ok.
  call frame_method_ts. call frame_method_ts. call frame_method_ts.
  call frame_method_ts.
  finish_pipeline. reflexivity.
Qed.

Lemma eval_co2_vs_gdp_scatterplot_pipeline_ok (h : Heap) (a : nat)
    (t : DataFrame) (w : Widgets) :
  nth_error h a = Some (Table t) ->
  exists h' v,
    eval_co2_vs_gdp_scatterplot_pipeline h a w = Some (h', v) /\
    extends h h' /\
    nth_error h' v
    = Some (ScatterFrame (co2_vs_gdp_scatterplot_pipeline t w)).
Proof.
  intros Ha. unfold eval_co2_vs_gdp_scatterplot_pipeline, to_frame,
    reset_index, sort_values_by_year.
  call getattr_year_ok. call series_eq_ok. call getattr_country_ok.
  call series_isin_ok. call series_invert_ok. call series_and_ok.
  call getitem_ok.
  call groupby_country_year_gdp_mean_ok.
  call frame_method_sc. call frame_method_sc. call frame_method_sc.
  call frame_method_sc.
  finish_pipeline. reflexivity.
Qed.

Lemma eval_co2_source_bar_pipeline_ok (h : Heap) (a : nat)
    (t : DataFrame) (w : Widgets) :
  nth_error h a = Some (Table t) ->
  exists h' v,
    eval_co2_source_bar_pipeline h a w = Some (h', v) /\
    extends h h' /\
    nth_error h' v = Some (BarFrame (co2_source_bar_pipeline t w)).
Proof.
  intros Ha. unfold eval_co2_source_bar_pipeline, to_frame, reset_index,
    sort_values_by_year.
  call getattr_year_ok. call series_eq_ok. call getattr_country_ok.
  call series_isin_ok. call series_and_ok. call getitem_ok.
  call groupby_year_country_sum_ok.
  call frame_method_bar. call frame_method_bar. call frame_method_bar.
  call frame_method_bar.
  finish_pipeline. reflexivity.
Qed.

(** An evaluation succeeds, keeps every object already on the heap, and
    leaves the views up to date. *)
Lemma evaluate_ok (h : Heap) (a : nat) (t : DataFrame) (w : Widgets) :
  nth_error h a = Some (Table t) ->
  exists nb,
    evaluate h a a w = Some nb /\
    extends h (heap nb) /\ df nb = a /\ widgets nb = w /\ up_to_date t nb.
Proof.
  intros Ha. unfold evaluate.
  destruct (eval_co2_pipeline_ok h a t w Ha) as [h1 [v1 [E1 [X1 L1]]]].
  rewrite E1. cbn [and_then].
  destruct (eval_co2_vs_gdp_scatterplot_pipeline_ok h1 a t w (X1 _ _ Ha))
    as [h2 [v2 [E2 [X2 L2]]]].
  rewrite E2. cbn [and_then].
  destruct (eval_co2_source_bar_pipeline_ok h2 a t w (X2 _ _ (X1 _ _ Ha)))
    as [h3 [v3 [E3 [X3 L3]]]].
  rewrite E3. cbn [and_then].
  eexists. split; [reflexivity |].
  assert (E : extends h h3)
    by (eapply extends_trans; [eapply extends_trans |]; eassumption).
  repeat split; simpl; auto.
Qed.

Lemma step_ok (t : DataFrame) (nb : Notebook) (ev : Event) :
  up_to_date t nb ->
  exists nb',
    step nb ev = Some nb' /\
    extends (heap nb) (heap nb') /\ df nb' = df nb /\ up_to_date t nb'.
Proof.
  intros [Hidf [Hdf _]]. unfold step. rewrite Hidf.
  destruct (evaluate_ok (heap nb) (df nb) t
              (set_widget (widgets nb) ev) Hdf)
    as [nb' [Hev [Hext [Hdf' [_ Hup]]]]].
  exists nb'. auto.
Qed.

Lemma run_ok (t : DataFrame) (evs : list Event) :
  forall nb : Notebook,
    up_to_date t nb ->
    exists nb',
      run nb evs = Some nb' /\
      extends (heap nb) (heap nb') /\ df nb' = df nb /\ up_to_date t nb'.
Proof.
  induction evs as [| ev evs IH]; intros nb Hup; simpl.
  - exists nb. split; [reflexivity |].
    split; [apply extends_refl | auto].
  - destruct (step_ok t nb ev Hup) as [nb1 [Hstep [Hext1 [Hdf1 Hup1]]]].
    rewrite Hstep.
    destruct (IH nb1 Hup1) as [nb' [Hrun [Hext [Hdf Hup']]]].
    exists nb'. split; [exact Hrun |].
    split; [eapply extends_trans; eassumption |].
    split; [congruence | exact Hup'].
Qed.




(** * Further properties of the notebook *)

(** ** The time-series view in full *)

Lemma country_year_eqb_eq (a b : object * Z) :
  country_year_eqb a b = true -> a = b.
Proof.
  destruct a as [c y], b as [c' y']. unfold country_year_eqb. simpl.
  intros H. apply andb_true_iff in H. destruct H as [Hc Hy].
  apply Z.eqb_eq in Hy. apply object_eqb_eq in Hc. now subst.
Qed.

Lemma country_year_eqb_refl (a : object * Z) :
  country_year_notna a = true -> country_year_eqb a a = true.
Proof.
  destruct a as [c y]. unfold country_year_notna, country_year_eqb. simpl.
  intros H. now rewrite Z.eqb_refl, object_eqb_refl.
Qed.

(** The group of a key of the time-series view: the rows of the table of
    that country and year, whatever the slider value above that year. *)
Lemma co2_pipeline_group (idf : DataFrame) (w : Widgets) (c : object) (y : Z) :
  y <= year_slider w -> isin continents c = true ->
  filter (fun r : Row => country_year_eqb (key_country_year r) (c, y))
    (filter (fun r : Row => country_year_notna (key_country_year r))
       (filter (fun r : Row => (year r <=? year_slider w)
                               && isin continents (country r)) idf))
  = rows_of idf c y.
Proof.
  intros Hy Hc. unfold rows_of. rewrite !filter_filter.
  apply filter_ext_in. intros r _.
  unfold key_country_year, country_year_notna, country_year_eqb.
  cbn [fst snd].
  destruct (object_eqb (country r) c) eqn:E.
  - apply object_eqb_eq in E. rewrite E, Hc, (isin_notna _ _ Hc).
    destruct (year r =? y) eqn:Ey; [| now rewrite !andb_false_r].
    apply Z.eqb_eq in Ey. subst y.
    now rewrite (proj2 (Z.leb_le _ _) Hy).
  - destruct (year r <=? year_slider w), (isin continents (country r)),
      (object_notna (country r)), (year r =? y); reflexivity.
Qed.

(** The rows of the time-series view, exactly: one for each (country,
    year) of a table row that passes the filter, holding the mean of the
    selected column over the table rows of that country and year. *)
Lemma co2_pipeline_In (idf : DataFrame) (w : Widgets) (v : TimeSeriesRow) :
  In v (co2_pipeline idf w) <->
  exists r : Row,
    In r idf /\ year r <= year_slider w /\
    isin continents (country r) = true /\
    v = {| ts_country := country r; ts_year := year r;
           ts_value :=
             series_mean (map (yaxis_column (yaxis_co2 w))
                              (rows_of idf (country r) (year r))) |}.
Proof.
  unfold co2_pipeline. rewrite In_sort_values, in_map_iff. split.
  - intros [[[c y] g] [<- Hkg]]. cbn [fst snd].
    apply In_groupby in Hkg. destruct Hkg as [[r [Hr [_ Hkey]]] ->].
    injection Hkey as <- <-.
    apply filter_In in Hr. destruct Hr as [Hr Hsel].
    apply andb_true_iff in Hsel. destruct Hsel as [Hy Hc].
    apply Z.leb_le in Hy.
    exists r. repeat split; auto.
    now rewrite co2_pipeline_group.
  - intros [r [Hr [Hy [Hc ->]]]].
    assert (Hsel : In r (filter (fun r : Row =>
                            (year r <=? year_slider w)
                            && isin continents (country r)) idf)).
    { apply filter_In. split; [exact Hr |].
      rewrite Hc, andb_true_r. now apply Z.leb_le. }
    pose proof (groupby_complete key_country_year country_year_notna
                  country_year_eqb country_year_leb
                  country_year_eqb_eq r _ Hsel (isin_notna _ _ Hc)) as Hk.
    apply in_map_iff in Hk. destruct Hk as [[k g] [Hfst Hkg]].
    simpl in Hfst. subst k.
    exists (key_country_year r, g). split; [| exact Hkg].
    apply In_groupby in Hkg. destruct Hkg as [_ ->].
    change (key_country_year r) with (country r, year r).
    cbn [fst snd].
    now rewrite co2_pipeline_group.
Qed.

(** X1.  The time-series view has one row for each (country, year) pair:
    no pair occurs twice, and every table row that passes the filter is
    represented by the row of its pair, which holds the mean of the
    selected column over all table rows of that country and year. *)
Theorem co2_pipeline_one_row_per_key (idf : DataFrame) (w : Widgets) :
  NoDup (map (fun v => (ts_country v, ts_year v)) (co2_pipeline idf w)) /\
  forall r : Row,
    In r idf -> year r <= year_slider w ->
    isin continents (country r) = true ->
    exists v : TimeSeriesRow,
      In v (co2_pipeline idf w) /\
      ts_country v = country r /\ ts_year v = year r /\
      let values :=
        skipna (map (fun r' : Row =>
                       match yaxis_co2 w with
                       | opt_co2 => co2 r'
                       | opt_co2_per_capita => co2_per_capita r'
                       end)
                    (filter (fun r' : Row =>
                               (year r' =? year r)
                               && object_eqb (country r') (country r))
                            idf)) in
      ts_value v
      = F64.div (compensated_sum values)
                (F64.of_Z (Z.of_nat (List.length values))).
Proof.
  split.
  - unfold co2_pipeline, sort_values.
    eapply Permutation_NoDup.
    { apply Permutation_map, Permutation_sym, sort_perm. }
    rewrite map_map. cbn [ts_country ts_year].
    erewrite map_ext; [apply NoDup_groupby_keys, country_year_eqb_refl |].
    intros [[c y] g]. reflexivity.
  - intros r Hr Hy Hc. eexists. split.
    + apply co2_pipeline_In. exists r. repeat split; eauto.
    + split; [reflexivity |]. split; [reflexivity |].
      cbv zeta. cbn [ts_value]. unfold series_mean.
      rewrite series_sum_compensated. unfold rows_of.
      assert (E : forall l : list Row,
                 map (yaxis_column (yaxis_co2 w)) l
                 = map (fun r' : Row =>
                          match yaxis_co2 w with
                          | opt_co2 => co2 r'
                          | opt_co2_per_capita => co2_per_capita r'
                          end) l).
      { intros l. apply map_ext. intros r'. now destruct (yaxis_co2 w). }
      now rewrite E.
Qed.

Lemma co2_pipeline_one_row_per_key_witness :
  exists v : TimeSeriesRow,
    In v (co2_pipeline (clean sample_raw) initial_widgets) /\
    ts_country v = PyStr "Asia" /\ ts_year v = 1850 /\
    ts_value v = F64.of_Z 6.
Proof.
  destruct (proj2 (co2_pipeline_one_row_per_key (clean sample_raw)
                     initial_widgets)
              (clean_row (sample_obs "Asia" 1850 (F64.of_Z 100)
                            (F64.of_Z 1000) (F64.of_Z 5))))
    as [v [H1 [H2 [H3 H4]]]];
    [left; reflexivity | discriminate | reflexivity |].
  exists v. repeat split; assumption.
Defined.

(** X2.  Moving the year slider to the right only adds rows to the
    time-series view: with the same y-axis selection, the view at a value
    [V] consists of exactly those rows of the view at a larger value whose
    year is at most [V], with the same values. *)
Theorem co2_pipeline_slider_monotone
    (idf : DataFrame) (w w' : Widgets) (v : TimeSeriesRow) :
  year_slider w <= year_slider w' ->
  yaxis_co2 w = yaxis_co2 w' ->
  (In v (co2_pipeline idf w) <->
   In v (co2_pipeline idf w') /\ ts_year v <= year_slider w).
Proof.
  intros HV Hy. rewrite !co2_pipeline_In. split.
  - intros [r [Hr [Hle [Hc ->]]]]. split; [| exact Hle].
    exists r. rewrite <- Hy. repeat split; auto. lia.
  - intros [[r [Hr [Hle [Hc ->]]]] Hv]. cbn [ts_year] in Hv.
    exists r. rewrite Hy. repeat split; auto.
Qed.

Lemma co2_pipeline_slider_monotone_witness :
  let v := {| ts_country := PyStr "World"; ts_year := 1800;
              ts_value := F64.of_Z 1 |} in
  In v (co2_pipeline (clean sample_raw)
          {| year_slider := 1800; yaxis_co2 := opt_co2;
             yaxis_co2_source := opt_coal_co2 |}) /\
  In v (co2_pipeline (clean sample_raw) initial_widgets).
Proof.
  cbv zeta.
  assert (H : In {| ts_country := PyStr "World"; ts_year := 1800;
                    ts_value := F64.of_Z 1 |}
                 (co2_pipeline (clean sample_raw)
                    {| year_slider := 1800; yaxis_co2 := opt_co2;
                       yaxis_co2_source := opt_coal_co2 |})).
  { vm_compute. tauto. }
  split; [exact H |].
  refine (proj1 (proj1 (co2_pipeline_slider_monotone (clean sample_raw)
                          {| year_slider := 1800; yaxis_co2 := opt_co2;
                             yaxis_co2_source := opt_coal_co2 |}
                          initial_widgets _ _ _) H));
    [discriminate | reflexivity].
Defined.

(** ** Order of the rows *)

Section SortedFacts.
Context {A : Type}.
Variable leb : A -> A -> bool.
Hypothesis leb_total : forall a b, leb a b = true \/ leb b a = true.
Hypothesis leb_trans :
  forall a b c, leb a b = true -> leb b c = true -> leb a c = true.

Lemma In_insert (x z : A) (l : list A) :
  In z (insert leb x l) -> z = x \/ In z l.
Proof.
  intros H. apply (Permutation_in _ (insert_perm leb x l)) in H.
  destruct H as [<- | H]; auto.
Qed.

Lemma insert_sorted (x : A) (l : list A) :
  StronglySorted (fun a b => leb a b = true) l ->
  StronglySorted (fun a b => leb a b = true) (insert leb x l).
Proof.
  induction 1 as [| y l Hs IH Hy]; simpl.
  - repeat constructor.
  - destruct (leb x y) eqn:E.
    + constructor; [constructor; assumption |].
      constructor; [exact E |].
      eapply Forall_impl; [| exact Hy]. intros z Hz. eauto.
    + constructor; [exact IH |].
      apply Forall_forall. intros z Hz.
      apply In_insert in Hz. destruct Hz as [-> | Hz].
      * destruct (leb_total x y) as [H | H]; [congruence | exact H].
      * rewrite Forall_forall in Hy. auto.
Qed.

Lemma sort_sorted (l : list A) :
  StronglySorted (fun a b => leb a b = true) (sort leb l).
Proof.
  induction l as [| x l IH]; simpl; [constructor |].
  apply insert_sorted, IH.
Qed.
End SortedFacts.

Lemma StronglySorted_app_inv {A : Type} (R : A -> A -> Prop)
    (l1 l2 : list A) (a b : A) :
  StronglySorted R (l1 ++ l2) -> In a l1 -> In b l2 -> R a b.
Proof.
  induction l1 as [| x l1 IH]; simpl; intros Hs Ha Hb; [destruct Ha |].
  inversion Hs as [| x' l' Hs' Hx]; subst.
  destruct Ha as [-> | Ha].
  - rewrite Forall_forall in Hx. apply Hx, in_or_app. now right.
  - now apply IH.
Qed.

Lemma sort_values_sorted {A : Type} (by_year : A -> Z) (frame : list A) :
  StronglySorted (fun a b => by_year a <= by_year b)
                 (sort_values by_year frame).
Proof.
  unfold sort_values.
  eapply StronglySorted_ind
    with (P := StronglySorted (fun a b => by_year a <= by_year b));
    [constructor | |
     apply (sort_sorted (fun a b => by_year a <=? by_year b))].
  - intros a l _ IH Ha. constructor; [exact IH |].
    eapply Forall_impl; [| exact Ha]. intros b Hb. now apply Z.leb_le.
  - intros a b. destruct (Z.le_ge_cases (by_year a) (by_year b)) as [H | H];
      [left | right]; now apply Z.leb_le.
  - intros a b c Hab Hbc. apply Z.leb_le in Hab, Hbc.
    apply Z.leb_le. lia.
Qed.

(** X3.  The time-series view comes sorted by year: a row never has a
    later year than a row further down. *)
Theorem co2_pipeline_sorted_by_year
    (idf : DataFrame) (w : Widgets) (i j : nat) (a b : TimeSeriesRow) :
  (i < j)%nat ->
  nth_error (co2_pipeline idf w) i = Some a ->
  nth_error (co2_pipeline idf w) j = Some b ->
  ts_year a <= ts_year b.
Proof.
  intros Hij Ha Hb.
  assert (Hs : StronglySorted (fun a b => ts_year a <= ts_year b)
                 (co2_pipeline idf w))
    by apply sort_values_sorted.
  revert Hs Ha Hb. generalize (co2_pipeline idf w) as l.
  revert j Hij. induction i as [| i IH]; intros j Hij l Hs Ha Hb.
  - destruct l as [| x l]; [discriminate |]. injection Ha as ->.
    destruct j as [| j]; [lia |]. simpl in Hb.
    inversion Hs as [| x' l' _ Hx]; subst.
    rewrite Forall_forall in Hx. eapply Hx, nth_error_In, Hb.
  - destruct l as [| x l]; [discriminate |].
    destruct j as [| j]; [lia |]. simpl in Ha, Hb.
    inversion Hs as [| x' l' Hs' _]; subst.
    apply (IH j ltac:(lia) l Hs' Ha Hb).
Qed.

Lemma co2_pipeline_sorted_by_year_witness :
  map ts_year (co2_pipeline (clean sample_raw) initial_widgets)
  = [1700; 1800; 1850; 1850] /\
  1700 <= 1850.
Proof.
  split; [reflexivity |].
  refine (co2_pipeline_sorted_by_year (clean sample_raw) initial_widgets
            0 3
            {| ts_country := PyStr "Asia"; ts_year := 1700;
               ts_value := F64.of_Z 11 |}
            {| ts_country := PyStr "Europe"; ts_year := 1850;
               ts_value := F64.of_Z 0 |} _ _ _);
    [lia | reflexivity | reflexivity].
Defined.

(** X4.  The preview [co2_pipeline.head(n=10)] shows at most ten rows,
    all of them rows of the view, and they are the earliest ones: no row
    left out of the preview has an earlier year than a row shown. *)
Theorem co2_pipeline_head_earliest (idf : DataFrame) (w : Widgets) :
  (List.length (co2_pipeline_head idf w) <= 10)%nat /\
  (forall a, In a (co2_pipeline_head idf w) -> In a (co2_pipeline idf w)) /\
  forall a b : TimeSeriesRow,
    In a (co2_pipeline_head idf w) ->
    In b (skipn 10 (co2_pipeline idf w)) ->
    ts_year a <= ts_year b.
Proof.
  unfold co2_pipeline_head, head.
  split; [apply firstn_le_length |].
  split.
  - intros a Ha.
    rewrite <- (firstn_skipn 10 (co2_pipeline idf w)).
    apply in_or_app. now left.
  - intros a b Ha Hb.
    apply (StronglySorted_app_inv (fun a b => ts_year a <= ts_year b)
             (firstn 10 (co2_pipeline idf w))
             (skipn 10 (co2_pipeline idf w))); auto.
    rewrite firstn_skipn. apply sort_values_sorted.
Qed.

Lemma co2_pipeline_head_earliest_witness :
  map ts_year (co2_pipeline_head (clean sample_long) initial_widgets)
  = [1819; 1820; 1821; 1822; 1823; 1824; 1825; 1826; 1827; 1828] /\
  map ts_year (skipn 10 (co2_pipeline (clean sample_long) initial_widgets))
  = [1829; 1830] /\
  1828 <= 1829.
Proof.
  split; [reflexivity |]. split; [reflexivity |].
  refine (proj2 (proj2 (co2_pipeline_head_earliest (clean sample_long)
                          initial_widgets))
            {| ts_country := PyStr "World"; ts_year := 1828;
               ts_value := F64.of_Z 2 |}
            {| ts_country := PyStr "World"; ts_year := 1829;
               ts_value := F64.of_Z 1 |} _ _);
    vm_compute; tauto.
Defined.

(** ** The bar view and the cross-section view in full *)

Lemma isin_excl_world_continents (c : object) :
  isin continents_excl_world c = true -> isin continents c = true.
Proof.
  intros H. apply isin_PyStr in H. destruct H as [s [-> Hin]].
  apply isin_PyStr. exists s. split; [reflexivity |]. now right.
Qed.

(** The rows of the bar view, exactly. *)
Lemma co2_source_bar_pipeline_In
    (idf : DataFrame) (w : Widgets) (v : BarRow) :
  In v (co2_source_bar_pipeline idf w) <->
  exists r : Row,
    In r idf /\ year r = year_slider w /\
    isin continents_excl_world (country r) = true /\
    v = {| bar_year := year r; bar_country := country r;
           bar_value :=
             series_sum (map (source_column (yaxis_co2_source w))
                             (bar_rows idf w (country r))) |}.
Proof.
  split.
  - intros Hv. destruct (bar_row_spec idf w v Hv) as [Hy [Hc Hval]].
    unfold co2_source_bar_pipeline in Hv.
    apply In_sort_values, in_map_iff in Hv.
    destruct Hv as [[[y c] g] [Hmk Hkg]].
    apply In_groupby in Hkg. destruct Hkg as [[r [Hr [_ Hkey]]] _].
    injection Hkey as <- <-.
    apply filter_In in Hr. destruct Hr as [Hr Hsel].
    apply andb_true_iff in Hsel. destruct Hsel as [Hyr Hcr].
    apply Z.eqb_eq in Hyr.
    exists r. repeat split; auto.
    destruct v as [vy vc vv]. cbn [bar_year bar_country bar_value] in *.
    cbn [fst snd] in Hmk. injection Hmk as Hvy Hvc _.
    subst vy vc. now rewrite Hval.
  - intros [r [Hr [Hy [Hc ->]]]].
    assert (Hsel : In r (filter (fun r : Row =>
                            (year r =? year_slider w)
                            && isin continents_excl_world (country r)) idf)).
    { apply filter_In. split; [exact Hr |].
      rewrite Hc, andb_true_r. now apply Z.eqb_eq. }
    pose proof (groupby_complete key_year_country year_country_notna
                  year_country_eqb year_country_leb
                  year_country_eqb_eq r _ Hsel (isin_notna _ _ Hc)) as Hk.
    apply in_map_iff in Hk. destruct Hk as [[k g] [Hfst Hkg]].
    simpl in Hfst. subst k.
    assert (Hv : In {| bar_year := year r; bar_country := country r;
                       bar_value :=
                         series_sum
                           (map (source_column (yaxis_co2_source w)) g) |}
                    (co2_source_bar_pipeline idf w)).
    { unfold co2_source_bar_pipeline. apply In_sort_values, in_map_iff.
      exists (key_year_country r, g). split; [reflexivity | exact Hkg]. }
    destruct (bar_row_spec idf w _ Hv) as [_ [_ Hval]].
    cbn [bar_value bar_country] in Hval. now rewrite <- Hval.
Qed.

(** X5.  Every bar of the bar chart has its point on the line chart: at
    the same widget values, the country and year of a row of the bar view
    are those of a row of the time-series view. *)
Theorem bar_rows_on_time_series
    (idf : DataFrame) (w : Widgets) (v : BarRow) :
  In v (co2_source_bar_pipeline idf w) ->
  exists v' : TimeSeriesRow,
    In v' (co2_pipeline idf w) /\
    ts_country v' = bar_country v /\
    ts_year v' = bar_year v /\
    ts_year v' = year_slider w.
Proof.
  intros Hv. apply co2_source_bar_pipeline_In in Hv.
  destruct Hv as [r [Hr [Hy [Hc ->]]]].
  eexists. split.
  - apply co2_pipeline_In. exists r.
    split; [exact Hr |]. split; [lia |].
    split; [now apply isin_excl_world_continents | reflexivity].
  - cbn [ts_country ts_year bar_country bar_year]. auto.
Qed.

Lemma bar_rows_on_time_series_witness :
  exists v' : TimeSeriesRow,
    In v' (co2_pipeline (clean sample_raw) initial_widgets) /\
    ts_country v' = PyStr "Europe" /\ ts_year v' = 1850.
Proof.
  assert (H : In {| bar_year := 1850; bar_country := PyStr "Europe";
                    bar_value := F64.of_Z 0 |}
                 (co2_source_bar_pipeline (clean sample_raw)
                    initial_widgets)).
  { vm_compute. tauto. }
  destruct (bar_rows_on_time_series _ _ _ H) as [v' [H1 [H2 [H3 _]]]].
  exists v'. repeat split; assumption.
Defined.

(** X6.  The bar view is empty exactly when the table has no row of the
    selected year for a country of [continents_excl_world]. *)
Theorem co2_source_bar_pipeline_empty (idf : DataFrame) (w : Widgets) :
  co2_source_bar_pipeline idf w = [] <->
  forall r : Row,
    In r idf -> year r = year_slider w ->
    isin continents_excl_world (country r) = false.
Proof.
  split.
  - intros Hnil r Hr Hy.
    destruct (isin continents_excl_world (country r)) eqn:Hc;
      [| reflexivity].
    assert (Hv : In {| bar_year := year r; bar_country := country r;
                       bar_value :=
                         series_sum
                           (map (source_column (yaxis_co2_source w))
                                (bar_rows idf w (country r))) |}
                    (co2_source_bar_pipeline idf w)).
    { apply co2_source_bar_pipeline_In. exists r. auto. }
    rewrite Hnil in Hv. destruct Hv.
  - intros Hall.
    destruct (co2_source_bar_pipeline idf w) as [| v l] eqn:E;
      [reflexivity |].
    assert (Hv : In v (co2_source_bar_pipeline idf w))
      by (rewrite E; now left).
    apply co2_source_bar_pipeline_In in Hv.
    destruct Hv as [r [Hr [Hy [Hc _]]]].
    rewrite (Hall r Hr Hy) in Hc. discriminate Hc.
Qed.

Lemma co2_source_bar_pipeline_empty_witness :
  co2_source_bar_pipeline (clean sample_raw)
    {| year_slider := 1750; yaxis_co2 := opt_co2;
       yaxis_co2_source := opt_coal_co2 |} = [].
Proof.
  apply co2_source_bar_pipeline_empty.
  intros r Hr Hy. simpl in Hr.
  repeat (destruct Hr as [<- | Hr]; [discriminate Hy |]).
  destruct Hr.
Defined.

(** The derived cell of a cleaned row is NaN exactly when the filled
    [gdp] and [population] are both infinite. *)
Lemma clean_row_ratio_isnan (r0 : Obs) :
  let r := clean_row r0 in
  F64.isnan (gdp_per_capita r)
  = F64.isinf (gdp r) && F64.isinf (population r).
Proof.
  cbv zeta. unfold clean_row. cbn [gdp_per_capita obs].
  change (F64.eqb (population (fillna_row 0 r0)) (F64.of_Z 0))
    with (F64.is_zero (population (fillna_row 0 r0))).
  destruct (F64.is_zero (population (fillna_row 0 r0))) eqn:Hz; cbn [negb].
  - apply F64Facts.is_zero_iff in Hz. destruct Hz as [s ->].
    simpl. now rewrite andb_false_r.
  - rewrite F64Facts.div_isnan, Hz, andb_false_r, orb_false_r.
    cbn [fillna_row gdp population].
    now rewrite !fillna_float_notnan.
Qed.





(** X8.  In the cleaned table the derived cell is missing exactly when the
    row's [gdp] and [population] are both infinite. *)
Theorem gdp_per_capita_isnan_iff (raw : RawFrame) (r : Row) :
  In r (clean raw) ->
  F64.isnan (gdp_per_capita r)
  = F64.isinf (gdp r) && F64.isinf (population r).
Proof.
  intros Hr. apply In_clean in Hr. destruct Hr as [r0 [_ ->]].
  apply clean_row_ratio_isnan.
Qed.

Lemma gdp_per_capita_isnan_iff_witness :
  F64.isnan (gdp_per_capita (clean_row obs_inf_inf)) = true /\
  F64.isnan (gdp_per_capita
               (clean_row (sample_obs "Chad" 1850 (F64.of_Z 3) F64.nan
                             (F64.of_Z 9)))) = false.
Proof.
  split.
  - rewrite (gdp_per_capita_isnan_iff [obs_inf_inf]);
      [reflexivity | left; reflexivity].
  - rewrite (gdp_per_capita_isnan_iff sample_raw);
      [reflexivity | simpl; tauto].
Defined.

(** X9.  A row whose raw [population] is missing gets [population] 0 and
    [gdp_per_capita] 0, whatever its [gdp]: a known output with an
    unknown population is shown as zero output per capita. *)
Theorem missing_population_gives_zero_ratio
    (raw : RawFrame) (i : nat) (r0 : Obs) :
  nth_error raw i = Some r0 ->
  F64.isnan (population r0) = true ->
  exists r : Row,
    nth_error (clean raw) i = Some r /\
    population r = F64.zero /\
    gdp r = fillna_float 0 (gdp r0) /\
    gdp_per_capita r = F64.zero.
Proof.
  intros Hi Hp. exists (clean_row r0).
  split; [rewrite nth_error_clean, Hi; reflexivity |].
  assert (Hpz : population (clean_row r0) = F64.zero).
  { simpl. unfold fillna_float. rewrite Hp. reflexivity. }
  split; [exact Hpz |]. split; [reflexivity |].
  apply (proj2 (clean_row_ratio r0)). now rewrite Hpz.
Qed.

Lemma missing_population_gives_zero_ratio_witness :
  exists r : Row,
    nth_error (clean sample_raw) 2 = Some r /\
    gdp r = F64.of_Z 3 /\
    gdp_per_capita r = F64.zero.
Proof.
  destruct (missing_population_gives_zero_ratio sample_raw 2 _
              eq_refl eq_refl) as [r [H1 [_ [H3 H4]]]].
  exists r. repeat split; assumption.
Defined.

(** ** Widget events *)

Lemma evaluate_fields (h : Heap) (a_df a_idf : nat) (w : Widgets)
    (nb : Notebook) :
  evaluate h a_df a_idf w = Some nb ->
  widgets nb = w /\ df nb = a_df /\ idf nb = a_idf.
Proof.
  unfold evaluate.
  destruct (eval_co2_pipeline h a_idf w) as [[h1 v1] |];
    [| discriminate].
  cbn [and_then].
  destruct (eval_co2_vs_gdp_scatterplot_pipeline h1 a_idf w) as [[h2 v2] |];
    [| discriminate].
  cbn [and_then].
  destruct (eval_co2_source_bar_pipeline h2 a_idf w) as [[h3 v3] |];
    [| discriminate].
  cbn [and_then]. intros [= <-]. repeat split.
Qed.

Lemma step_widgets (nb nb' : Notebook) (ev : Event) :
  step nb ev = Some nb' -> widgets nb' = set_widget (widgets nb) ev.
Proof. intros H. now apply evaluate_fields in H. Qed.

(** Whatever the events, a session that ends leaves the views up to date
    with the cleaned table. *)
Lemma session_up_to_date (raw : RawFrame) (evs : list Event) (nb : Notebook) :
  session raw evs = Some nb -> up_to_date (clean raw) nb.
Proof.
  destruct (load_and_clean_ok raw) as [h [a [Hload Ha]]].
  destruct (evaluate_ok h a (clean raw) initial_widgets Ha)
    as [nb0 [Hev [_ [_ [_ Hup0]]]]].
  destruct (run_ok (clean raw) evs nb0 Hup0) as [nb1 [Hrun [_ [_ Hup]]]].
  unfold session, start. rewrite Hload, Hev, Hrun.
  now intros [= <-].
Qed.

(** X11.  Pressing a radio button leaves the slider and the views that
    do not use that button as they were: the y-axis buttons of the line
    chart change neither the scatter plot nor the bar chart, and the
    source buttons of the bar chart change neither the line chart nor the
    scatter plot. *)
Theorem radio_buttons_leave_other_views
    (raw : RawFrame) (evs : list Event) (nb nb' : Notebook) (ev : Event) :
  session raw evs = Some nb ->
  step nb ev = Some nb' ->
  match ev with
  | SetYearSlider _ => yaxis_co2 (widgets nb') = yaxis_co2 (widgets nb) /\
                       yaxis_co2_source (widgets nb')
                       = yaxis_co2_source (widgets nb)
  | SetYaxisCo2 _ =>
      year_slider (widgets nb') = year_slider (widgets nb) /\
      nth_error (heap nb') (co2_vs_gdp_scatterplot_view nb')
      = nth_error (heap nb) (co2_vs_gdp_scatterplot_view nb) /\
      nth_error (heap nb') (co2_source_bar_view nb')
      = nth_error (heap nb) (co2_source_bar_view nb)
  | SetYaxisCo2Source _ =>
      year_slider (widgets nb') = year_slider (widgets nb) /\
      nth_error (heap nb') (co2_pipeline_view nb')
      = nth_error (heap nb) (co2_pipeline_view nb) /\
      nth_error (heap nb') (co2_vs_gdp_scatterplot_view nb')
      = nth_error (heap nb) (co2_vs_gdp_scatterplot_view nb)
  end.
Proof.
  intros Hs Hstep.
  pose proof (session_up_to_date raw evs nb Hs) as Hup.
  destruct (step_ok (clean raw) nb ev Hup) as [nb1 [Hstep1 [_ [_ Hup1]]]].
  rewrite Hstep in Hstep1. injection Hstep1 as <-.
  pose proof (step_widgets nb nb' ev Hstep) as Hw.
  destruct Hup as [_ [_ [Hts [Hsc Hbar]]]].
  destruct Hup1 as [_ [_ [Hts1 [Hsc1 Hbar1]]]].
  rewrite Hw in Hts1, Hsc1, Hbar1. rewrite Hw.
  destruct ev as [v | y | c].
  - split; reflexivity.
  - split; [reflexivity |].
    rewrite Hsc1, Hsc, Hbar1, Hbar. split; reflexivity.
  - split; [reflexivity |].
    rewrite Hts1, Hts, Hsc1, Hsc. split; reflexivity.
Qed.

Lemma radio_buttons_leave_other_views_witness :
  exists nb nb' : Notebook,
    session sample_raw [] = Some nb /\
    step nb (SetYaxisCo2 opt_co2_per_capita) = Some nb' /\
    co2_source_bar_view nb' <> co2_source_bar_view nb /\
    nth_error (heap nb') (co2_source_bar_view nb')
    = nth_error (heap nb) (co2_source_bar_view nb).
Proof.
  do 2 eexists. split; [reflexivity |]. split; [reflexivity |].
  split; [discriminate |].
  refine (proj2 (proj2 (radio_buttons_leave_other_views sample_raw []
                          _ _ (SetYaxisCo2 opt_co2_per_capita)
                          eq_refl eq_refl))).
Defined.

(** * The button-group views *)

Module ButtonGroupViewFacts.
Import ButtonGroupView.

(** Delivering an event to a list of listeners. *)
Lemma deliver_fields (ev : MouseEvent) (ls : list (MouseEvent * bool)) :
  forall v : View,
    let v' :=
      fold_left
        (fun v l => if MouseEvent_eqb (fst l) ev then toggle (snd l) v else v)
        ls v in
    model_tooltip v' = model_tooltip v /\
    tooltip v' = tooltip v /\
    listeners v' = listeners v /\
    List.length (tooltips v') = List.length (tooltips v).
Proof.
  assert (Hsetv : forall s t b,
             List.length (setv s t b) = List.length s).
  { induction s as [| x s IH]; intros [| t] b; simpl; auto. }
  induction ls as [| l ls IH]; intros v; simpl; [repeat split |].
  destruct (IH (if MouseEvent_eqb (fst l) ev then toggle (snd l) v else v))
    as [H1 [H2 [H3 H4]]].
  rewrite H1, H2, H3, H4.
  destruct (MouseEvent_eqb (fst l) ev); [| repeat split].
  unfold toggle. destruct (tooltip v) as [tv |] eqn:E; simpl;
    rewrite ?E, ?Hsetv; repeat split.
Qed.

Lemma apply_op_fields (v : View) (op : Op) :
  model_tooltip (apply_op v op) = model_tooltip v /\
  tooltip (apply_op v op)
  = (if is_lazy_initialize op
     then match model_tooltip v with
          | Some t => Some (mkTooltipView t)
          | None => tooltip v
          end
     else tooltip v) /\
  listeners (apply_op v op)
  = listeners v
    ++ (if is_render op then [(mouseenter, true); (mouseleave, false)]
        else []) /\
  List.length (tooltips (apply_op v op)) = List.length (tooltips v).
Proof.
  destruct op as [| | ev |]; simpl.
  - unfold lazy_initialize. simpl.
    destruct (model_tooltip v) eqn:E; simpl;
      rewrite ?E, ?app_nil_r; repeat split.
  - repeat split.
  - unfold dispatch.
    destruct (deliver_fields ev (listeners v) v) as [H1 [H2 [H3 H4]]].
    rewrite app_nil_r. repeat split; assumption.
  - unfold remove. destruct (tooltip v) eqn:E; simpl;
      rewrite ?E, ?app_nil_r; repeat split.
Qed.

(** The fields of a view after any sequence of operations. *)
Lemma run_fields (ops : list Op) :
  forall v : View,
    model_tooltip (run ops v) = model_tooltip v /\
    tooltip (run ops v)
    = (if existsb is_lazy_initialize ops
       then match model_tooltip v with
            | Some t => Some (mkTooltipView t)
            | None => tooltip v
            end
       else tooltip v) /\
    listeners (run ops v)
    = listeners v
      ++ flat_map (fun _ => [(mouseenter, true); (mouseleave, false)])
                  (filter is_render ops) /\
    List.length (tooltips (run ops v)) = List.length (tooltips v).
Proof.
  unfold run.
  induction ops as [| op ops IH]; intros v; simpl.
  - rewrite app_nil_r. repeat split.
  - destruct (IH (apply_op v op)) as [H1 [H2 [H3 H4]]].
    destruct (apply_op_fields v op) as [G1 [G2 [G3 G4]]].
    rewrite H1, H2, H3, H4, G1, G2, G3, G4.
    split; [reflexivity |]. split; [| split; [| reflexivity]].
    + destruct (is_lazy_initialize op); simpl.
      * destruct (model_tooltip v);
          destruct (existsb is_lazy_initialize ops); reflexivity.
      * reflexivity.
    + rewrite <- app_assoc. f_equal.
      now destruct (is_render op).
Qed.

(** X12.  [children()] yields the children of the base class and then,
    once [lazy_initialize] has run on a model that has a tooltip, the
    tooltip view of that very tooltip; in every other case it yields the
    children of the base class only. *)
Theorem children_with_tooltip
    (store : list Tooltip) (attrs : option (option Ref)) (ops : list Op)
    (super_children : list Child) :
  children super_children (run ops (new_view store (new_model attrs)))
  = super_children
    ++ (if existsb is_lazy_initialize ops
        then match attrs with
             | Some (Some t) => [TooltipChild (mkTooltipView t)]
             | _ => []
             end
        else []).
Proof.
  unfold children. f_equal.
  destruct (run_fields ops (new_view store (new_model attrs)))
    as [_ [H _]].
  rewrite H. simpl.
  destruct (existsb is_lazy_initialize ops); [| reflexivity].
  destruct attrs as [[t |] |]; reflexivity.
Qed.

Lemma children_with_tooltip_witness :
  children [BaseChild 0; BaseChild 1]
    (run [OpRender; OpLazyInitialize]
         (new_view [mkTooltip false] (new_model (Some (Some 0%nat)))))
  = [BaseChild 0; BaseChild 1; TooltipChild (mkTooltipView 0%nat)].
Proof.
  exact (children_with_tooltip [mkTooltip false] (Some (Some 0%nat))
           [OpRender; OpLazyInitialize] [BaseChild 0; BaseChild 1]).
Defined.

Lemma render_listeners_wf (n : list Op) :
  Forall (fun l => snd l = is_enter (fst l)) (render_listeners n).
Proof.
  induction n as [| x n IH]; simpl; repeat constructor. exact IH.
Qed.

Lemma render_listeners_count (ev : MouseEvent) (n : list Op) :
  List.length (filter (fun l => MouseEvent_eqb (fst l) ev)
                      (render_listeners n))
  = List.length n.
Proof.
  induction n as [| x n IH]; simpl; [reflexivity |].
  destruct ev; simpl; now rewrite IH.
Qed.

Lemma setv_nth (s : list Tooltip) (t : Ref) (b : bool) :
  (t < List.length s)%nat -> nth_error (setv s t b) t = Some (mkTooltip b).
Proof.
  revert t. induction s as [| x s IH]; intros [| t] H; simpl in *;
    try lia; [reflexivity |].
  apply IH. lia.
Qed.

Lemma length_setv (s : list Tooltip) (t : Ref) (b : bool) :
  List.length (setv s t b) = List.length s.
Proof.
  revert t. induction s as [| x s IH]; intros [| t]; simpl; auto.
Qed.

(** Delivering an event to a view with a tooltip: every listener of the
    event calls [setv] once, and the flag ends as the event says. *)
Lemma deliver_visible (ev : MouseEvent) (t : Ref)
    (ls : list (MouseEvent * bool)) :
  Forall (fun l => snd l = is_enter (fst l)) ls ->
  forall v : View,
    tooltip v = Some (mkTooltipView t) ->
    (t < List.length (tooltips v))%nat ->
    let v' :=
      fold_left
        (fun v l => if MouseEvent_eqb (fst l) ev then toggle (snd l) v else v)
        ls v in
    (if existsb (fun l => MouseEvent_eqb (fst l) ev) ls
     then visible_at v' t = Some (is_enter ev)
     else tooltips v' = tooltips v) /\
    List.length (filter is_setv (calls v'))
    = (List.length (filter is_setv (calls v))
       + List.length (filter (fun l => MouseEvent_eqb (fst l) ev) ls))%nat.
Proof.
  induction 1 as [| [e b] ls Hwf _ IH]; intros v Ht Hlen; simpl.
  - split; [reflexivity | lia].
  - simpl in Hwf. subst b.
    destruct (MouseEvent_eqb e ev) eqn:E; simpl.
    + assert (Hev : is_enter e = is_enter ev) by (destruct e, ev; easy).
      set (v1 := toggle (is_enter e) v).
      assert (Ht1 : tooltip v1 = Some (mkTooltipView t))
        by (unfold v1, toggle; rewrite Ht; exact Ht).
      assert (Hs1 : tooltips v1 = setv (tooltips v) t (is_enter e))
        by (unfold v1, toggle; rewrite Ht; reflexivity).
      assert (Hc1 : calls v1 = calls v ++ [SetV t (is_enter e)])
        by (unfold v1, toggle; rewrite Ht; reflexivity).
      assert (Hlen1 : (t < List.length (tooltips v1))%nat)
        by (rewrite Hs1, length_setv; exact Hlen).
      destruct (IH v1 Ht1 Hlen1) as [H1 H2].
      split.
      * destruct (existsb _ ls); [exact H1 |].
        unfold visible_at. rewrite H1, Hs1, setv_nth by exact Hlen.
        simpl. now rewrite Hev.
      * rewrite H2, Hc1, filter_app, length_app. simpl. lia.
    + destruct (IH v Ht Hlen) as [H1 H2]. split; [exact H1 |].
      rewrite H2. lia.
Qed.

Lemma filter_is_render_mouse (evs : list MouseEvent) :
  filter is_render (map OpMouse evs) = [].
Proof. induction evs as [| e evs IH]; simpl; auto. Qed.

Lemma existsb_is_render (ops : list Op) :
  existsb is_render ops = true -> filter is_render ops <> [].
Proof.
  induction ops as [| op ops IH]; simpl; [discriminate |].
  destruct (is_render op); simpl; [discriminate | exact IH].
Qed.

(** A view after [lazy_initialize] and at least one [render], in either
    order, followed by any mouse events. *)
Lemma ready_view (store : list Tooltip) (t : Ref)
    (setup : list Op) (evs : list MouseEvent) :
  existsb is_lazy_initialize setup = true ->
  let v := run (setup ++ map OpMouse evs) (new_view store (Some t)) in
  tooltip v = Some (mkTooltipView t) /\
  listeners v = render_listeners (filter is_render setup) /\
  List.length (tooltips v) = List.length store.
Proof.
  intros Hinit.
  destruct (run_fields (setup ++ map OpMouse evs) (new_view store (Some t)))
    as [_ [H2 [H3 H4]]].
  cbv zeta. rewrite H2, H3, H4. simpl.
  rewrite existsb_app, Hinit, filter_app, filter_is_render_mouse, app_nil_r.
  repeat split.
Qed.

(** X13.  Hovering shows and hides the tooltip.  Once [lazy_initialize]
    has run on a model with a tooltip and the view has been rendered at
    least once, in either order, every mouse event sets the tooltip's
    [visible] attribute: after any sequence of events it is true exactly
    when the last event was mouseenter. *)
Theorem hover_toggles_tooltip
    (store : list Tooltip) (t : Ref) (setup : list Op)
    (evs : list MouseEvent) (last : MouseEvent) :
  (t < List.length store)%nat ->
  existsb is_lazy_initialize setup = true ->
  existsb is_render setup = true ->
  visible_at
    (run (setup ++ map OpMouse (evs ++ [last])) (new_view store (Some t))) t
  = Some (is_enter last).
Proof.
  intros Ht Hinit Hrender.
  rewrite map_app, app_assoc. unfold run at 1. rewrite fold_left_app.
  fold (run (setup ++ map OpMouse evs) (new_view store (Some t))).
  destruct (ready_view store t setup evs Hinit) as [H1 [H2 H3]].
  set (v := run (setup ++ map OpMouse evs) (new_view store (Some t))) in *.
  simpl. unfold dispatch.
  destruct (deliver_visible last t (listeners v)
              ltac:(rewrite H2; apply render_listeners_wf)
              v H1 ltac:(rewrite H3; exact Ht)) as [Hvis _].
  cbv zeta in Hvis.
  assert (Hex : existsb (fun l => MouseEvent_eqb (fst l) last) (listeners v)
                = true).
  { rewrite H2. apply existsb_is_render in Hrender.
    destruct (filter is_render setup) as [| op n]; [congruence |].
    destruct last; reflexivity. }
  now rewrite Hex in Hvis.
Qed.

Lemma hover_toggles_tooltip_witness :
  visible_at
    (run ([OpRender; OpLazyInitialize; OpRender]
          ++ map OpMouse ([mouseenter; mouseleave] ++ [mouseenter]))
         (new_view [mkTooltip false; mkTooltip false] (Some 1%nat))) 1%nat
  = Some true.
Proof.
  apply (hover_toggles_tooltip [mkTooltip false; mkTooltip false] 1%nat
           [OpRender; OpLazyInitialize; OpRender]
           [mouseenter; mouseleave] mouseenter);
    [simpl; lia | reflexivity | reflexivity].
Defined.

(** X14.  Every [render] adds its own pair of listeners and none is ever
    taken off: after [n] renders the element carries [2 n] listeners, and
    a single mouse event makes [n] calls of [setv] on the tooltip. *)
Theorem render_accumulates_listeners
    (store : list Tooltip) (t : Ref) (setup : list Op) (ev : MouseEvent) :
  (t < List.length store)%nat ->
  existsb is_lazy_initialize setup = true ->
  let v := run setup (new_view store (Some t)) in
  let n := List.length (filter is_render setup) in
  List.length (listeners v) = (2 * n)%nat /\
  List.length (filter is_setv (calls (dispatch ev v)))
  = (List.length (filter is_setv (calls v)) + n)%nat.
Proof.
  intros Ht Hinit.
  destruct (ready_view store t setup [] Hinit) as [H1 [H2 H3]].
  simpl in H1, H2, H3. rewrite app_nil_r in H1, H2, H3.
  cbv zeta. split.
  - rewrite H2. generalize (filter is_render setup) as l.
    induction l as [| x l IH]; simpl; lia.
  - unfold dispatch.
    destruct (deliver_visible ev t
                (listeners (run setup (new_view store (Some t))))
                ltac:(rewrite H2; apply render_listeners_wf)
                _ H1 ltac:(rewrite H3; exact Ht)) as [_ Hc].
    cbv zeta in Hc. rewrite Hc, H2, render_listeners_count. reflexivity.
Qed.

Lemma render_accumulates_listeners_witness :
  let v := run [OpLazyInitialize; OpRender; OpRender; OpRender]
               (new_view [mkTooltip false] (Some 0%nat)) in
  List.length (listeners v) = 6%nat /\
  List.length (filter is_setv (calls (dispatch mouseenter v))) = 3%nat.
Proof.
  exact (render_accumulates_listeners [mkTooltip false] 0%nat
           [OpLazyInitialize; OpRender; OpRender; OpRender] mouseenter
           ltac:(simpl; lia) eq_refl).
Defined.

(** Without a tooltip view nothing is delivered. *)
Lemma deliver_without_tooltip (ev : MouseEvent)
    (ls : list (MouseEvent * bool)) (v : View) :
  tooltip v = None ->
  fold_left
    (fun v l => if MouseEvent_eqb (fst l) ev then toggle (snd l) v else v)
    ls v = v.
Proof.
  intros H. induction ls as [| l ls IH]; simpl; [reflexivity |].
  destruct (MouseEvent_eqb (fst l) ev); [| exact IH].
  unfold toggle. rewrite H. exact IH.
Qed.

(** X15.  A widget built without a tooltip (the default, or an explicit
    null) behaves as the base class does: whatever is done to its view,
    no tooltip view is built, the tooltip store is untouched, and the only
    calls made are those to the base class; mouse events are ignored
    without an error. *)
Theorem no_tooltip_no_effect
    (store : list Tooltip) (attrs : option (option Ref)) (ops : list Op) :
  new_model attrs = None ->
  let v := run ops (new_view store (new_model attrs)) in
  tooltip v = None /\
  tooltips v = store /\
  forall c : Call,
    In c (calls v) ->
    c = SuperLazyInitialize \/ c = SuperRender \/ c = SuperRemove.
Proof.
  intros ->. cbv zeta.
  assert (Hinv : forall v : View,
             model_tooltip v = None -> tooltip v = None ->
             tooltip (run ops v) = None /\
             tooltips (run ops v) = tooltips v /\
             forall c, In c (calls (run ops v)) ->
               In c (calls v) \/
               c = SuperLazyInitialize \/ c = SuperRender \/
               c = SuperRemove).
  { unfold run. induction ops as [| op ops IH]; intros v Hm Ht; simpl.
    - repeat split; auto.
    - assert (Hop : model_tooltip (apply_op v op) = None /\
                    tooltip (apply_op v op) = None /\
                    tooltips (apply_op v op) = tooltips v /\
                    (calls (apply_op v op) = calls v \/
                     exists c, calls (apply_op v op) = calls v ++ [c] /\
                       (c = SuperLazyInitialize \/ c = SuperRender \/
                        c = SuperRemove))).
      { destruct op as [| | ev |]; simpl.
        - unfold lazy_initialize. simpl. rewrite Hm. simpl.
          repeat split; auto. right. eexists. split; [reflexivity | auto].
        - repeat split; auto. right. eexists. split; [reflexivity | auto].
        - unfold dispatch. rewrite deliver_without_tooltip by exact Ht.
          repeat split; auto.
        - unfold remove. rewrite Ht. simpl.
          repeat split; auto. right. eexists. split; [reflexivity | auto]. }
      destruct Hop as [Hm1 [Ht1 [Hs1 Hc1]]].
      destruct (IH (apply_op v op) Hm1 Ht1) as [G1 [G2 G3]].
      split; [exact G1 |]. split; [congruence |].
      intros c Hc. destruct (G3 c Hc) as [Hin | Hb]; [| auto].
      destruct Hc1 as [Heq | [c' [Heq Hc']]]; rewrite Heq in Hin; [auto |].
      apply in_app_or in Hin. destruct Hin as [Hin | [<- | []]]; auto. }
  destruct (Hinv (new_view store None) eq_refl eq_refl) as [H1 [H2 H3]].
  split; [exact H1 |]. split; [exact H2 |].
  intros c Hc. destruct (H3 c Hc) as [[] | H]; exact H.
Qed.

Lemma no_tooltip_no_effect_witness :
  let v := run [OpRender; OpLazyInitialize; OpMouse mouseenter; OpRemove]
               (new_view [mkTooltip false] (new_model None)) in
  tooltip v = None /\ tooltips v = [mkTooltip false].
Proof.
  destruct (no_tooltip_no_effect [mkTooltip false] None
              [OpRender; OpLazyInitialize; OpMouse mouseenter; OpRemove]
              eq_refl) as [H1 [H2 _]].
  split; [exact H1 | exact H2].
Defined.

(** X16.  [remove()] takes the tooltip view down first and the widget
    after it, and leaves the tooltip model as it is: a tooltip that was
    visible when its widget is removed keeps [visible] set. *)
Theorem remove_tooltip_first
    (store : list Tooltip) (t : Ref) (setup : list Op)
    (evs : list MouseEvent) :
  existsb is_lazy_initialize setup = true ->
  let v := run (setup ++ map OpMouse evs) (new_view store (Some t)) in
  calls (remove v)
  = (calls v ++ [TooltipRemove (mkTooltipView t); SuperRemove])%list /\
  visible_at (remove v) t = visible_at v t.
Proof.
  intros Hinit.
  destruct (ready_view store t setup evs Hinit) as [H1 _].
  cbv zeta. unfold remove. rewrite H1. simpl.
  rewrite <- app_assoc. split; reflexivity.
Qed.

Lemma remove_tooltip_first_witness :
  let v := run ([OpLazyInitialize; OpRender] ++ map OpMouse [mouseenter])
               (new_view [mkTooltip false] (Some 0%nat)) in
  calls (remove v)
  = [SuperLazyInitialize; BuildView 0%nat; SuperRender; SetV 0%nat true;
     TooltipRemove (mkTooltipView 0%nat); SuperRemove] /\
  visible_at (remove v) 0%nat = Some true.
Proof.
  cbv zeta. split; [reflexivity |].
  exact (eq_trans
           (proj2 (remove_tooltip_first [mkTooltip false] 0%nat
                     [OpLazyInitialize; OpRender] [mouseenter] eq_refl))
           eq_refl).
Defined.

End ButtonGroupViewFacts.

(** * The path of the sidebar image *)

Module posixpathFacts.
Import posixpath.
Local Open Scope string_scope.

Lemma component_spec (c : string) :
  component c = true ->
  c <> "" /\ contains_sep c = false /\ c <> "." /\ c <> "..".
Proof.
  unfold component. intros H.
  repeat (apply andb_true_iff in H; destruct H as [H ?]).
  repeat match goal with
         | H : negb _ = true |- _ => apply negb_true_iff in H
         end.
  repeat split; try assumption; intros ->; discriminate.
Qed.

Lemma append_nil_r (s : string) : s ++ "" = s.
Proof. induction s; simpl; congruence. Qed.

Lemma append_assoc (a b c : string) : (a ++ b) ++ c = a ++ (b ++ c).
Proof. induction a; simpl; congruence. Qed.

Lemma path_of_app (a b : list string) :
  path_of (a ++ b) = path_of a ++ path_of b.
Proof.
  induction a as [| c a IH]; simpl; [reflexivity |].
  now rewrite IH, append_assoc.
Qed.

(** Splitting *)

Lemma split_not_nil (s : string) : split s <> [].
Proof.
  induction s as [| c s IH]; simpl; [discriminate |].
  destruct (Ascii.eqb c sep); [discriminate |].
  destruct (split s); [contradiction | discriminate].
Qed.

Lemma split_component (c s : string) :
  contains_sep c = false ->
  split (c ++ String sep s) = c :: split s.
Proof.
  induction c as [| x c IH]; simpl; intros H.
  - reflexivity.
  - apply orb_false_iff in H. destruct H as [Hx Hc].
    rewrite Hx, (IH Hc). reflexivity.
Qed.

Lemma split_single (c : string) :
  contains_sep c = false -> split c = [c].
Proof.
  induction c as [| x c IH]; simpl; intros H; [reflexivity |].
  apply orb_false_iff in H. destruct H as [Hx Hc].
  rewrite Hx, (IH Hc). reflexivity.
Qed.

Lemma split_component_path (c : string) (cs : list string) :
  contains_sep c = false ->
  forallb component cs = true ->
  split (c ++ path_of cs) = c :: cs.
Proof.
  revert c. induction cs as [| c' cs IH]; intros c Hc Hcs; simpl.
  - rewrite append_nil_r. now apply split_single.
  - simpl in Hcs. apply andb_true_iff in Hcs. destruct Hcs as [Hc' Hcs].
    rewrite split_component by exact Hc. f_equal.
    apply IH; [| exact Hcs].
    now apply component_spec in Hc'.
Qed.

Lemma split_path_of (cs : list string) :
  forallb component cs = true ->
  cs <> [] ->
  split (path_of cs) = "" :: cs.
Proof.
  destruct cs as [| c cs]; [congruence |]. intros H _. simpl.
  simpl in H. apply andb_true_iff in H. destruct H as [Hc Hcs].
  rewrite ?Ascii.eqb_refl. f_equal.
  apply split_component_path; [| exact Hcs].
  now apply component_spec in Hc.
Qed.

(** The loop of [normpath] keeps the components of such a path. *)
Lemma normpath_loop (n : nat) (cs : list string) :
  forallb component cs = true ->
  forall acc, fold_left (normpath_step n) cs acc = (acc ++ cs)%list.
Proof.
  induction cs as [| c cs IH]; simpl; intros H acc.
  - now rewrite app_nil_r.
  - apply andb_true_iff in H. destruct H as [Hc Hcs].
    rewrite (IH Hcs).
    apply component_spec in Hc. destruct Hc as [H1 [_ [H3 H4]]].
    unfold normpath_step.
    apply String.eqb_neq in H1, H3, H4. rewrite H1, H3, H4.
    cbn [orb negb]. now rewrite <- app_assoc.
Qed.

Lemma concat_path_of (cs : list string) :
  cs <> [] -> String sep (String.concat "/" cs) = path_of cs.
Proof.
  induction cs as [| c cs IH]; [congruence |]. intros _.
  destruct cs as [| c' cs].
  - simpl. now rewrite append_nil_r.
  - change (String.concat "/" (c :: c' :: cs))
      with (c ++ String sep (String.concat "/" (c' :: cs))).
    rewrite IH by discriminate. reflexivity.
Qed.

(** [normpath] leaves the path of a list of components as it is. *)
Lemma normpath_path_of (cs : list string) :
  forallb component cs = true -> cs <> [] ->
  normpath (path_of cs) = path_of cs.
Proof.
  intros H Hne. unfold normpath.
  rewrite (split_path_of cs H Hne).
  destruct cs as [| c cs]; [congruence |].
  simpl in H. apply andb_true_iff in H. destruct H as [Hc Hcs].
  pose proof (component_spec c Hc) as [Hc1 [Hc2 _]].
  change (path_of (c :: cs)) with (String sep (c ++ path_of cs)).
  cbn [String.eqb startswith_sep]. rewrite ?Ascii.eqb_refl.
  assert (Hn : match c ++ path_of cs with
               | String c2 rest =>
                   if Ascii.eqb c2 sep && negb (startswith_sep rest)
                   then 2%nat else 1%nat
               | EmptyString => 1%nat
               end = 1%nat).
  { destruct c as [| x c]; [congruence |]. simpl.
    simpl in Hc2. apply orb_false_iff in Hc2. destruct Hc2 as [-> _].
    reflexivity. }
  cbv zeta. rewrite Hn.
  change (fold_left (normpath_step 1) ("" :: c :: cs) [])
    with (fold_left (normpath_step 1) (c :: cs) []).
  rewrite (normpath_loop 1 (c :: cs)) by (simpl; now rewrite Hc, Hcs).
  cbn [app slashes append].
  rewrite concat_path_of by discriminate. reflexivity.
Qed.

(** Ends of paths *)

Lemma endswith_sep_cons (x : ascii) (s : string) :
  s <> "" -> endswith_sep (String x s) = endswith_sep s.
Proof. destruct s; [congruence | reflexivity]. Qed.

Lemma endswith_sep_app (a b : string) :
  b <> "" -> endswith_sep (a ++ b) = endswith_sep b.
Proof.
  intros Hb. induction a as [| x a IH]; simpl; [reflexivity |].
  destruct (a ++ b) eqn:E; [| exact IH].
  destruct a; simpl in E; [congruence | discriminate].
Qed.

Lemma endswith_sep_component (c : string) :
  contains_sep c = false -> endswith_sep c = false.
Proof.
  induction c as [| x c IH]; simpl; intros H; [reflexivity |].
  apply orb_false_iff in H. destruct H as [Hx Hc].
  destruct c; [exact Hx | now apply IH].
Qed.

Lemma path_of_nonempty (cs : list string) : cs <> [] -> path_of cs <> "".
Proof. destruct cs; [congruence | discriminate]. Qed.

Lemma endswith_sep_path_of (cs : list string) :
  forallb component cs = true -> endswith_sep (path_of cs) = false.
Proof.
  induction cs as [| c cs IH]; intros H; [reflexivity |].
  simpl in H. apply andb_true_iff in H. destruct H as [Hc Hcs].
  apply component_spec in Hc. destruct Hc as [Hc1 [Hc2 _]].
  cbn [path_of].
  destruct cs as [| c' cs].
  - cbn [path_of]. rewrite append_nil_r.
    rewrite endswith_sep_cons by exact Hc1.
    now apply endswith_sep_component.
  - rewrite endswith_sep_cons.
    + rewrite endswith_sep_app by discriminate. now apply IH.
    + destruct c; discriminate.
Qed.

Lemma join_path_of (cs : list string) (b : string) :
  forallb component cs = true -> cs <> [] ->
  startswith_sep b = false ->
  join (path_of cs) b = path_of cs ++ String sep b.
Proof.
  intros H Hne Hb. unfold join. rewrite Hb.
  rewrite (endswith_sep_path_of cs H).
  destruct cs as [| c cs]; [congruence | reflexivity].
Qed.

Lemma contains_sep_app_sep (a s : string) :
  contains_sep (a ++ String sep s) = true.
Proof.
  induction a as [| x a IH]; simpl; [reflexivity |].
  rewrite IH. apply orb_true_r.
Qed.

Lemma head_of_app_sep (a f : string) :
  contains_sep f = false -> head_of (a ++ String sep f) = a ++ "/".
Proof.
  intros Hf. induction a as [| x a IH].
  - simpl. rewrite Hf. reflexivity.
  - cbn [append head_of]. rewrite contains_sep_app_sep, IH. reflexivity.
Qed.

Lemma rstrip_sep_app_sep (a : string) :
  rstrip_sep (a ++ "/") = rstrip_sep a.
Proof.
  induction a as [| x a IH]; [reflexivity |].
  cbn [append rstrip_sep]. now rewrite IH.
Qed.

Lemma rstrip_sep_id (a : string) :
  endswith_sep a = false -> rstrip_sep a = a.
Proof.
  induction a as [| x a IH]; intros H; [reflexivity |].
  destruct a as [| y a].
  - simpl in H |- *. now rewrite H.
  - rewrite endswith_sep_cons in H by discriminate.
    cbn [rstrip_sep]. fold rstrip_sep.
    change (match rstrip_sep (String y a) with
            | "" => if Ascii.eqb x sep then "" else String x ""
            | String a0 s => String x (String a0 s)
            end = String x (String y a)).
    now rewrite (IH H).
Qed.

Lemma all_sep_path_of (cs : list string) (s : string) :
  forallb component cs = true -> cs <> [] ->
  all_sep (path_of cs ++ s) = false.
Proof.
  destruct cs as [| c cs]; [congruence |]. intros H _.
  simpl in H. apply andb_true_iff in H. destruct H as [Hc _].
  apply component_spec in Hc. destruct Hc as [Hc1 [Hc2 _]].
  destruct c as [| x c]; [congruence |].
  simpl in Hc2. apply orb_false_iff in Hc2. destruct Hc2 as [Hx _].
  simpl. now rewrite Hx.
Qed.

(** The directory of a file directly under such a path is that path. *)
Lemma dirname_path_of (cs : list string) (f : string) :
  forallb component cs = true -> cs <> [] ->
  contains_sep f = false ->
  dirname (path_of cs ++ String sep f) = path_of cs.
Proof.
  intros H Hne Hf. unfold dirname.
  rewrite head_of_app_sep by exact Hf.
  rewrite (all_sep_path_of cs "/" H Hne).
  assert (Hnz : String.eqb (path_of cs ++ "/") "" = false).
  { destruct cs; [congruence | reflexivity]. }
  rewrite Hnz. cbn [negb andb].
  rewrite rstrip_sep_app_sep.
  apply rstrip_sep_id, endswith_sep_path_of, H.
Qed.

(** X17.  [notebook_dir] is the working directory of the process, not the
    directory of the notebook: "__file__" is a string, so [abspath] places
    it under [os.getcwd()] and [dirname] takes it off again.  The image is
    therefore looked up at
    [<cwd>/co2_dashboard_practice/img/randomimage.png]. *)
Theorem image_path_under_cwd (comps : list string) :
  comps <> [] ->
  forallb component comps = true ->
  let cwd := path_of comps in
  notebook_dir cwd = cwd /\
  image_path cwd = cwd ++ "/co2_dashboard_practice/img/randomimage.png".
Proof.
  intros Hne H. cbv zeta.
  assert (Hdir : notebook_dir (path_of comps) = path_of comps).
  { unfold notebook_dir, abspath. cbn [isabs startswith_sep].
    change (Ascii.eqb "_" sep) with false. cbv iota.
    rewrite join_path_of by (auto; reflexivity).
    change (String sep "__file__") with (path_of ["__file__"]).
    rewrite <- path_of_app.
    rewrite normpath_path_of.
    - rewrite path_of_app. apply dirname_path_of; auto.
    - rewrite forallb_app, H. reflexivity.
    - destruct comps; discriminate. }
  split; [exact Hdir |].
  unfold image_path. rewrite Hdir.
  apply join_path_of; auto.
Qed.

Lemma image_path_under_cwd_witness :
  notebook_dir "/home/user/work" = "/home/user/work" /\
  image_path "/home/user/work"
  = "/home/user/work/co2_dashboard_practice/img/randomimage.png".
Proof.
  exact (image_path_under_cwd ["home"; "user"; "work"]
           ltac:(discriminate) eq_refl).
Defined.

(** At the root the same holds with a single separator. *)
Example image_path_at_root :
  notebook_dir "/" = "/" /\
  image_path "/" = "/co2_dashboard_practice/img/randomimage.png".
Proof. split; reflexivity. Qed.

End posixpathFacts.

(** * Missing data in the charts *)

Lemma fillna_float_idem (value : Z) (f : float64) :
  fillna_float value (fillna_float value f) = fillna_float value f.
Proof. apply fillna_float_keeps, fillna_float_notnan. Qed.

(** X18.  Filling twice is filling once: [fillna(value)] applied to an
    already filled table returns it unchanged. *)
Theorem fillna_idempotent (value : Z) (raw : RawFrame) :
  fillna value (fillna value raw) = fillna value raw.
Proof.
  unfold fillna. rewrite map_map. apply map_ext. intros r.
  unfold fillna_row. cbn [country year population gdp co2 co2_per_capita
                            coal_co2 oil_co2 gas_co2 other].
  rewrite !fillna_float_idem, map_map.
  f_equal.
  - now destruct (country r).
  - apply map_ext. intros c.
    apply fillna_cell_keeps, fillna_cell_notna.
Qed.

Lemma source_column_clean_row (c : Source) (r0 : Obs) :
  source_column c (clean_row r0) = fillna_float 0 (raw_source_column c r0).
Proof. destruct c; reflexivity. Qed.

Lemma series_sum_zeros (s : list float64) :
  (forall x, In x s -> x = F64.zero) -> series_sum s = F64.zero.
Proof.
  intros H. rewrite series_sum_compensated.
  rewrite skipna_id by (intros x Hx; now rewrite (H x Hx)).
  unfold compensated_sum.
  induction s as [| x s IH]; simpl; [reflexivity |].
  rewrite (H x (or_introl eq_refl)).
  apply IH. intros y Hy. apply H. now right.
Qed.

(** X19.  Missing data show as zero in the bar chart.  If the selected
    source column is missing in every raw row of a listed continent for
    the selected year, the bar view still has a row for that continent,
    and its value is 0. *)
Theorem missing_source_gives_zero_bar
    (raw : RawFrame) (w : Widgets) (r0 : Obs) :
  In r0 raw ->
  year r0 = year_slider w ->
  isin continents_excl_world (country r0) = true ->
  (forall r1 : Obs,
     In r1 raw -> year r1 = year_slider w -> country r1 = country r0 ->
     F64.isnan (raw_source_column (yaxis_co2_source w) r1) = true) ->
  exists v : BarRow,
    In v (co2_source_bar_pipeline (clean raw) w) /\
    bar_country v = country r0 /\
    bar_value v = F64.zero.
Proof.
  intros Hr0 Hy Hc Hmiss.
  destruct (proj1 (isin_PyStr _ _) Hc) as [s [Hs _]].
  assert (Hc0 : country (clean_row r0) = country r0)
    by (simpl; now rewrite Hs).
  eexists. split.
  - apply co2_source_bar_pipeline_In. exists (clean_row r0).
    split; [apply In_clean; eauto |].
    split; [exact Hy |]. split; [now rewrite Hc0 | reflexivity].
  - cbn [bar_country bar_value]. split; [exact Hc0 |].
    apply series_sum_zeros. intros x Hx.
    apply in_map_iff in Hx. destruct Hx as [r [<- Hr]].
    unfold bar_rows in Hr. apply filter_In in Hr. destruct Hr as [Hr Hsel].
    apply andb_true_iff in Hsel. destruct Hsel as [Hyr Hcr].
    apply Z.eqb_eq in Hyr. apply object_eqb_eq in Hcr.
    apply In_clean in Hr. destruct Hr as [r1 [Hr1 ->]].
    rewrite source_column_clean_row.
    unfold fillna_float. rewrite Hmiss; [reflexivity | exact Hr1 | exact Hyr |].
    rewrite Hc0, Hs in Hcr. simpl in Hcr.
    rewrite Hs. destruct (country r1); simpl in Hcr; congruence.
Qed.

Lemma missing_source_gives_zero_bar_witness :
  exists v : BarRow,
    In v (co2_source_bar_pipeline (clean sample_raw) initial_widgets) /\
    bar_country v = PyStr "Europe" /\
    bar_value v = F64.zero.
Proof.
  apply (missing_source_gives_zero_bar sample_raw initial_widgets
           (sample_obs "Europe" 1850 (F64.of_Z 3) F64.nan F64.nan));
    [simpl; tauto | reflexivity | reflexivity |].
  intros r1 Hr1 Hy Hc. simpl in Hr1.
  repeat (destruct Hr1 as [<- | Hr1];
          [first [reflexivity | discriminate Hc | discriminate Hy] |]).
  destruct Hr1.
Defined.
